(** * AlphaGenome variant expression scanner: the scoring and region-calling core

  A shallow embedding of [alphagenome_sv_expression_scan.py]:
  [align_reference_for_indel], [compute_window_scores], [call_regions] and
  the per-track row emission of [main].

  Conventions.
  - A numpy array of shape (n_bases, n_tracks) is a list of rows, each row a
    list of samples; numpy arrays are rectangular, which the theorems ask
    for as [has_shape].  An array with no rows is the empty list.
  - Python integers and numpy index values are [Z]; indices are array
    positions, far from the 64-bit range, so no wrap-around occurs.
  - float64 samples are Rocq's primitive binary64 floats.  The arithmetic of
    [compute_window_scores] is written over the interface [Arith], whose
    binary64 instance is the program.
  - A numpy ValueError (shape mismatch in a slice assignment) is [None]. *)

From Stdlib Require Import String DecimalString.
From Stdlib Require Import ZArith List Bool Lia.
From Stdlib Require Import Floats.
Import ListNotations.

Set Warnings "-inexact-float".
Local Open Scope Z_scope.

(* ------------------------------------------------------------------ *)
(** ** Python sequences: lengths, slices, slice assignment *)
(* ------------------------------------------------------------------ *)

Module Py.
Section Seq.
Context {A : Type}.

Definition len (l : list A) : Z := Z.of_nat (length l).

(** [slice.indices] for step 1: a negative bound counts from the end, and
    the result is clamped into [0, len]. *)
Definition norm_index (n i : Z) : Z :=
  if i <? 0 then Z.max 0 (i + n) else Z.min i n.

(** [l[a:b]] *)
Definition slice (l : list A) (a b : Z) : list A :=
  let lo := norm_index (len l) a in
  let hi := norm_index (len l) b in
  firstn (Z.to_nat (hi - lo)) (skipn (Z.to_nat lo) l).

(** [l[a:b] = src] on the first axis of a numpy array.  The source is read
    before anything is written (numpy copies an overlapping source).  The
    row counts must agree, or the source has one row, which is broadcast;
    otherwise numpy raises. *)
Definition set_slice (l : list A) (a b : Z) (src : list A) : option (list A) :=
  let lo := norm_index (len l) a in
  let hi := norm_index (len l) b in
  let d := Z.to_nat (hi - lo) in
  let put (rows : list A) :=
    firstn (Z.to_nat lo) l ++ rows ++ skipn (Z.to_nat lo + d) l in
  if Nat.eqb (length src) d then Some (put src)
  else match src with
       | [x] => Some (put (repeat x d))
       | _ => None
       end.

(** [l[a:b] = scalar]: every selected row is rewritten by [f]. *)
Definition fill_slice (f : A -> A) (l : list A) (a b : Z) : list A :=
  let lo := norm_index (len l) a in
  let hi := norm_index (len l) b in
  let d := Z.to_nat (hi - lo) in
  firstn (Z.to_nat lo) l
    ++ map f (firstn d (skipn (Z.to_nat lo) l))
    ++ skipn (Z.to_nat lo + d) l.

(** [l[i]] for [i >= 0]; [None] is an index out of range. *)
Definition get (l : list A) (i : Z) : option A :=
  if i <? 0 then None else nth_error l (Z.to_nat i).
End Seq.

Section Zip.
Context {A B C : Type}.
(** Element-wise combination of two arrays of the same length. *)
Fixpoint zip_with (f : A -> B -> C) (xs : list A) (ys : list B) : list C :=
  match xs, ys with
  | x :: xs', y :: ys' => f x y :: zip_with f xs' ys'
  | _, _ => []
  end.
End Zip.
End Py.

(* ------------------------------------------------------------------ *)
(** ** Matrices *)
(* ------------------------------------------------------------------ *)

Definition matrix (F : Type) := list (list F).

(** Shape (n, t): n rows, each of t samples. *)
Definition has_shape {F} (m : matrix F) (n : Z) (t : nat) : Prop :=
  Py.len m = n /\ Forall (fun r => length r = t) m.

(** [m[j, c]] *)
Definition entry {F} (m : matrix F) (j : Z) (c : nat) : option F :=
  match Py.get m j with
  | Some r => nth_error r c
  | None => None
  end.

(** [m[:, c]]; [d] stands for a sample that a rectangular array never lacks. *)
Definition column {F} (d : F) (m : matrix F) (c : nat) : list F :=
  map (fun r => nth c r d) m.

(** [alt_vals.shape[1]] *)
Definition n_tracks_of {F} (m : matrix F) : nat :=
  match m with
  | [] => 0%nat
  | r :: _ => length r
  end.

(* ------------------------------------------------------------------ *)
(** ** Arithmetic interface *)
(* ------------------------------------------------------------------ *)

Class Arith (F : Type) := {
  f0 : F;
  f1 : F;
  fadd : F -> F -> F;
  fsub : F -> F -> F;
  fdiv : F -> F -> F;
  of_int : Z -> F
}.

(** [float(z)] for |z| < 2^63. *)
Definition float_of_int (z : Z) : float :=
  if z <? 0 then PrimFloat.opp (PrimFloat.of_uint63 (Uint63.of_Z (- z)))
  else PrimFloat.of_uint63 (Uint63.of_Z z).

#[export] Instance float_arith : Arith float := {|
  f0 := PrimFloat.zero;
  f1 := PrimFloat.one;
  fadd := PrimFloat.add;
  fsub := PrimFloat.sub;
  fdiv := PrimFloat.div;
  of_int := float_of_int
|}.

(* ------------------------------------------------------------------ *)
(** ** compute_window_scores *)
(* ------------------------------------------------------------------ *)

Section WindowScores.
Context {F : Type} `{Arith F}.

Definition row_add (r1 r2 : list F) : list F := Py.zip_with fadd r1 r2.

(** [np.cumsum(rows, axis=0)] after its first row [acc]. *)
Fixpoint cumsum_from (acc : list F) (rows : matrix F) : matrix F :=
  match rows with
  | [] => []
  | r :: rs => let acc' := row_add acc r in acc' :: cumsum_from acc' rs
  end.

Definition cumsum (rows : matrix F) : matrix F :=
  match rows with
  | [] => []
  | r :: rs => r :: cumsum_from r rs
  end.

(** [np.cumsum(np.vstack([np.zeros((1, n_tracks)), vals]), axis=0)] *)
Definition cumsum_zero (n_tracks : nat) (vals : matrix F) : matrix F :=
  cumsum (repeat f0 n_tracks :: vals).

Definition mat_zip (f : F -> F -> F) (a b : matrix F) : matrix F :=
  Py.zip_with (Py.zip_with f) a b.

Definition mat_map (f : F -> F) (a : matrix F) : matrix F :=
  map (map f) a.

(** [cs[lo + w : lo + w + n] - cs[lo : lo + n]], then [/= float(w)] *)
Definition window_means (cs : matrix F) (lo w n : Z) : matrix F :=
  mat_map (fun x => fdiv x (of_int w))
    (mat_zip fsub (Py.slice cs (lo + w) (lo + w + n)) (Py.slice cs lo (lo + n))).

(** The two arrays are taken to have one shape, as the model's outputs have:
    for arrays of different shapes numpy raises (or broadcasts), which the
    element-wise operations below do not follow. *)
Definition compute_window_scores (alt_vals ref_vals : matrix F)
    (start_idx end_idx window_size : Z) (epsilon : F) : matrix F :=
  let n_bases := Py.len alt_vals in
  let n_tracks := n_tracks_of alt_vals in
  let start_idx := if start_idx <? 0 then 0 else start_idx in
  let end_idx := if end_idx >? n_bases then n_bases else end_idx in
  let n_windows := end_idx - start_idx - window_size + 1 in
  if n_windows <=? 0 then []
  else
    let alt_cs := cumsum_zero n_tracks alt_vals in
    let ref_cs := cumsum_zero n_tracks ref_vals in
    let a := window_means alt_cs start_idx window_size n_windows in
    let r := window_means ref_cs start_idx window_size n_windows in
    mat_zip (fun x y => fsub (fdiv x (fadd y epsilon)) f1) a r.

(** Sum of the first [k] samples of track [c], accumulated in order. *)
Definition prefix_sum (vals : matrix F) (c : nat) (k : Z) : F :=
  fold_left fadd (firstn (Z.to_nat k) (column f0 vals c)) f0.

(** The score as the specification words it, for one window and one track:
    the mean of the [w] consecutive samples starting at [p], summed directly,
    of the alternate signal over that of the reference plus epsilon, minus
    one. *)
Definition window_mean (vals : matrix F) (c : nat) (p w : Z) : F :=
  fdiv (fold_left fadd (Py.slice (column f0 vals c) p (p + w)) f0) (of_int w).

Definition naive_score (alt_vals ref_vals : matrix F) (c : nat) (p w : Z)
    (epsilon : F) : F :=
  fsub (fdiv (window_mean alt_vals c p w)
             (fadd (window_mean ref_vals c p w) epsilon)) f1.

(** The [w] samples of track [c] from [p] on, summed directly. *)
Definition window_sum (vals : matrix F) (c : nat) (p w : Z) : F :=
  fold_left fadd (Py.slice (column f0 vals c) p (p + w)) f0.

(** The difference of cumulative sums the code takes for the window at [p]
    is the window's own sum: the cumulative sums have lost nothing to
    rounding and absorbed no not-a-number or infinity. *)
Definition prefix_difference_exact (vals : matrix F) (c : nat) (p w : Z) : Prop :=
  fsub (prefix_sum vals c (p + w)) (prefix_sum vals c p) = window_sum vals c p w.
End WindowScores.

Definition clip_start (start_idx : Z) : Z := Z.max 0 start_idx.
Definition clip_end (n_bases end_idx : Z) : Z := Z.min n_bases end_idx.
Definition n_windows_of (n_bases start_idx end_idx window_size : Z) : Z :=
  clip_end n_bases end_idx - clip_start start_idx - window_size + 1.


(* ------------------------------------------------------------------ *)
(** ** call_regions *)
(* ------------------------------------------------------------------ *)

(** An inclusive pair of window indices. *)
Definition region : Type := Z * Z.

Definition region_length (r : region) : Z := snd r - fst r + 1.

(** [np.where(np.abs(scores) > threshold)[0]], scanning from index [i].
    A not-a-number score compares false and is not selected. *)
Fixpoint where_abs_gt (i : Z) (scores : list float) (threshold : float) : list Z :=
  match scores with
  | [] => []
  | x :: xs =>
      if PrimFloat.ltb threshold (PrimFloat.abs x)
      then i :: where_abs_gt (i + 1) xs threshold
      else where_abs_gt (i + 1) xs threshold
  end.

(** The first loop: [for i in idx[1:]], then the tail append. *)
Fixpoint compress_loop (regions : list region) (start prev : Z) (rest : list Z)
  : list region :=
  match rest with
  | [] => regions ++ [(start, prev)]
  | i :: rest' =>
      if i =? prev + 1 then compress_loop regions start i rest'
      else compress_loop (regions ++ [(start, prev)]) i i rest'
  end.

(** [if cur_e - cur_s + 1 >= min_length: merged.append((cur_s, cur_e))] *)
Definition close_region (min_length : Z) (merged : list region) (cur_s cur_e : Z)
  : list region :=
  if cur_e - cur_s + 1 >=? min_length then merged ++ [(cur_s, cur_e)] else merged.

(** The second loop: [for s, e in regions[1:]], then the final close. *)
Fixpoint merge_loop (min_length merge_distance : Z) (merged : list region)
    (cur_s cur_e : Z) (rest : list region) : list region :=
  match rest with
  | [] => close_region min_length merged cur_s cur_e
  | (s, e) :: rest' =>
      if s - cur_e <=? merge_distance
      then merge_loop min_length merge_distance merged cur_s e rest'
      else merge_loop min_length merge_distance
             (close_region min_length merged cur_s cur_e) s e rest'
  end.

(** Everything after [idx] has been computed. *)
Definition call_regions_from (idx : list Z) (min_length merge_distance : Z)
  : list region :=
  match idx with
  | [] => []
  | i0 :: rest =>
      match compress_loop [] i0 i0 rest with
      | [] => []  (* not reached: the tail append leaves a run *)
      | (cur_s, cur_e) :: regions' =>
          merge_loop min_length merge_distance [] cur_s cur_e regions'
      end
  end.

Definition call_regions (scores : list float) (threshold : float)
    (min_length merge_distance : Z) : list region :=
  call_regions_from (where_abs_gt 0 scores threshold) min_length merge_distance.

(** *** Accumulator-free readings of the two loops *)

(** The runs that [compress_loop] appends. *)
Fixpoint runs (start prev : Z) (rest : list Z) : list region :=
  match rest with
  | [] => [(start, prev)]
  | i :: rest' =>
      if i =? prev + 1 then runs start i rest'
      else (start, prev) :: runs i i rest'
  end.

(** The regions that [merge_loop] appends. *)
Fixpoint sweep (min_length merge_distance : Z) (cur_s cur_e : Z)
    (rest : list region) : list region :=
  match rest with
  | [] => close_region min_length [] cur_s cur_e
  | (s, e) :: rest' =>
      if s - cur_e <=? merge_distance
      then sweep min_length merge_distance cur_s e rest'
      else close_region min_length [] cur_s cur_e
             ++ sweep min_length merge_distance s e rest'
  end.

(** The merge sweep alone: every region it closes, whatever its length. *)
Fixpoint merge_only (merge_distance : Z) (cur_s cur_e : Z) (rest : list region)
  : list region :=
  match rest with
  | [] => [(cur_s, cur_e)]
  | (s, e) :: rest' =>
      if s - cur_e <=? merge_distance
      then merge_only merge_distance cur_s e rest'
      else (cur_s, cur_e) :: merge_only merge_distance s e rest'
  end.

(** The maximal runs of selected indices of a score array. *)
Definition raw_runs (scores : list float) (threshold : float) : list region :=
  match where_abs_gt 0 scores threshold with
  | [] => []
  | i0 :: rest => runs i0 i0 rest
  end.

(** The closed regions before any length filter. *)
Definition merged_regions (scores : list float) (threshold : float)
    (merge_distance : Z) : list region :=
  match raw_runs scores threshold with
  | [] => []
  | (s, e) :: rs => merge_only merge_distance s e rs
  end.

Definition long_enough (min_length : Z) (r : region) : bool :=
  region_length r >=? min_length.

(** [s, s+1, ..., s+n-1] *)
Definition zrange (s : Z) (n : nat) : list Z :=
  map (fun k => s + Z.of_nat k) (seq 0 n).

(** Every index covered by a list of regions, in order. *)
Definition region_indices (rs : list region) : list Z :=
  flat_map (fun r => zrange (fst r) (Z.to_nat (region_length r))) rs.

(** Ascending runs past [b]: each run non-empty, each start beyond the end
    before it by at least two. *)
Fixpoint gapped (b : Z) (rs : list region) : Prop :=
  match rs with
  | [] => True
  | (s, e) :: tl => b + 1 < s /\ s <= e /\ gapped e tl
  end.

(** What [call_regions] guarantees of its result, relative to an end [b]
    before the first region. *)
Fixpoint separated (min_length merge_distance : Z) (b : Z) (rs : list region)
  : Prop :=
  match rs with
  | [] => True
  | (s, e) :: tl =>
      b + 1 < s /\ merge_distance < s - b /\ s <= e /\ min_length <= e - s + 1
      /\ separated min_length merge_distance e tl
  end.

Fixpoint ascending_from (b : Z) (idx : list Z) : Prop :=
  match idx with
  | [] => True
  | i :: tl => b < i /\ ascending_from i tl
  end.

(* ------------------------------------------------------------------ *)
(** ** align_reference_for_indel *)
(* ------------------------------------------------------------------ *)

Record Variant := {
  chromosome : string;
  position : Z;
  reference_bases : string;
  alternate_bases : string
}.

Record Interval := {
  interval_start : Z;
  interval_end : Z
}.

(** [vout.reference.rna_seq.values] and [vout.alternate.rna_seq.values] *)
Record VariantOutput := {
  reference : matrix float;
  alternate : matrix float
}.

Definition is_nan (x : float) : bool := PrimFloat.is_nan x.

(** A row after [... = np.nan]. *)
Definition nan_row (r : list float) : list float :=
  map (fun _ => PrimFloat.nan) r.

Definition align_reference_for_indel (variant : Variant) (interval : Interval)
    (vout : VariantOutput) (length_alter : Z) : option VariantOutput :=
  let off := position variant - interval_start interval in
  let width := interval_end interval - interval_start interval in
  let values := reference vout in
  if length_alter >? 0 then
    match Py.set_slice values off (width - length_alter)
            (Py.slice values (off + length_alter) width) with
    | None => None
    | Some values1 =>
        Some {| reference :=
                  Py.fill_slice nan_row values1 (width - length_alter) width;
                alternate := alternate vout |}
    end
  else if length_alter <? 0 then
    match Py.set_slice values (off - length_alter) width
            (Py.slice values off (width + length_alter)) with
    | None => None
    | Some values1 =>
        Some {| reference :=
                  Py.fill_slice nan_row values1 off (off - length_alter);
                alternate := alternate vout |}
    end
  else Some vout.

(** [len(variant.reference_bases) - len(variant.alternate_bases)] *)
Definition length_alter_of (variant : Variant) : Z :=
  Z.of_nat (String.length (reference_bases variant))
  - Z.of_nat (String.length (alternate_bases variant)).

(** The mutation offset and the interval width the aligner works with. *)
Definition mutation_offset (variant : Variant) (interval : Interval) : Z :=
  position variant - interval_start interval.

Definition interval_width (interval : Interval) : Z :=
  interval_end interval - interval_start interval.

(* ------------------------------------------------------------------ *)
(** ** main: the rows of one (variant, ontology) unit *)
(* ------------------------------------------------------------------ *)

(** A base-pair column of the table holds an integer or [np.nan]. *)
Inductive bp_cell :=
| bp_int (z : Z)
| bp_nan.

Record ResultRow := {
  chrom : string;
  pos : Z;
  ref : string;
  alt : string;
  ontology : string;
  track_name : string;
  is_significant : bool;
  n_regions : Z;
  region_index : Z;
  rel_start_bp : bp_cell;
  rel_end_bp : bp_cell;
  abs_start_bp : bp_cell;
  abs_end_bp : bp_cell;
  mean_score : float;
  max_score : float;
  min_score : float;
  direction : string;
  plot_file : option string
}.

(** The command-line arguments the scan reads. *)
Record Args := {
  threshold : float;
  min_length : Z;
  merge_distance : Z;
  window_size : Z;
  scan_span : Z;
  epsilon : float
}.

(** [track_names[ti] if ti < len(track_names) else f'track_{ti}'] *)
Definition track_name_of (track_names : list string) (ti : nat) : string :=
  match nth_error track_names ti with
  | Some s => s
  | None => "track_" ++ DecimalString.NilEmpty.string_of_uint (Nat.to_uint ti)
  end.

(** [enumerate(l)] counting from [i]. *)
Fixpoint enumerate_from {A} (i : Z) (l : list A) : list (Z * A) :=
  match l with
  | [] => []
  | x :: xs => (i, x) :: enumerate_from (i + 1) xs
  end.

Section Rows.
(** numpy's not-a-number-aware reductions, taken as given. *)
Variables nanmean nanmax nanmin : list float -> float.

Variable args : Args.
Variable variant : Variant.
Variable the_ontology : string.
Variable track_names : list string.
(** [start_idx] and [center_idx] as [main] holds them (not clipped). *)
Variables start_idx center_idx : Z.

Definition classify_direction (mean_s max_s min_s : float) : string :=
  if PrimFloat.ltb 0 mean_s && PrimFloat.ltb 0 min_s then "up"
  else if PrimFloat.ltb mean_s 0 && PrimFloat.ltb max_s 0 then "down"
  else "mixed".

(** The row appended for region number [ri] of track [ti]. *)
Definition region_row (scores : list float) (regions : list region) (ti : nat)
    (ri : Z) (r : region) : ResultRow :=
  let rs := fst r in
  let re := snd r in
  let rel_start := (start_idx + rs) - center_idx in
  let rel_end := (start_idx + re + window_size args - 1) - center_idx in
  let abs_start := position variant + rel_start in
  let abs_end := position variant + rel_end in
  let seg_scores := Py.slice scores rs (re + 1) in
  let mean_s := nanmean seg_scores in
  let max_s := nanmax seg_scores in
  let min_s := nanmin seg_scores in
  {| chrom := chromosome variant;
     pos := position variant;
     ref := reference_bases variant;
     alt := alternate_bases variant;
     ontology := the_ontology;
     track_name := track_name_of track_names ti;
     is_significant := true;
     n_regions := Py.len regions;
     region_index := ri;
     rel_start_bp := bp_int rel_start;
     rel_end_bp := bp_int rel_end;
     abs_start_bp := bp_int abs_start;
     abs_end_bp := bp_int abs_end;
     mean_score := mean_s;
     max_score := max_s;
     min_score := min_s;
     direction := classify_direction mean_s max_s min_s;
     plot_file := None |}.

(** The row appended for a track without regions. *)
Definition non_significant_row (scores : list float) (ti : nat) : ResultRow :=
  {| chrom := chromosome variant;
     pos := position variant;
     ref := reference_bases variant;
     alt := alternate_bases variant;
     ontology := the_ontology;
     track_name := track_name_of track_names ti;
     is_significant := false;
     n_regions := 0;
     region_index := -1;
     rel_start_bp := bp_nan;
     rel_end_bp := bp_nan;
     abs_start_bp := bp_nan;
     abs_end_bp := bp_nan;
     mean_score := nanmean scores;
     max_score := nanmax scores;
     min_score := nanmin scores;
     direction := "none";
     plot_file := None |}.

(** One iteration of [for ti in range(n_tracks)]: the rows it appends. *)
Definition track_rows (win_scores : matrix float) (ti : nat) : list ResultRow :=
  let scores := column PrimFloat.nan win_scores ti in
  let regions :=
    call_regions scores (threshold args) (min_length args) (merge_distance args) in
  let is_sig := Py.len regions >? 0 in
  if is_sig
  then map (fun p => region_row scores regions ti (fst p) (snd p))
           (enumerate_from 0 regions)
  else [non_significant_row scores ti].

(** The whole loop over tracks, appending to [results_rows]. *)
Definition scan_tracks (win_scores : matrix float) (n_tracks : nat)
    (results_rows : list ResultRow) : list ResultRow :=
  fold_left (fun rows ti => rows ++ track_rows win_scores ti)
            (seq 0 n_tracks) results_rows.
End Rows.

(** The score array of the worked example. *)
Definition example_scores : list float := [0; 0.6; 0.7; 0; 0; 0.55; 0]%float.

(** Ten samples of one track, numbered by position. *)
Definition ten_rows : matrix float :=
  [[0]; [1]; [2]; [3]; [4]; [5]; [6]; [7]; [8]; [9]]%float.

Definition variant_at (p : Z) (ref_bases alt_bases : string) : Variant :=
  {| chromosome := "chr1"; position := p;
     reference_bases := ref_bases; alternate_bases := alt_bases |}.

(** A deletion of two bases at position 3, one of five bases at position 8,
    and an insertion of two bases at position 3. *)
Definition deletion_2_at_3 : Variant := variant_at 3 "ACG" "A".
Definition deletion_5_at_8 : Variant := variant_at 8 "ACGTAC" "A".


Definition ten_wide : Interval := {| interval_start := 0; interval_end := 10 |}.
Definition ten_out : VariantOutput := {| reference := ten_rows; alternate := ten_rows |}.

(** Sequential readings of numpy's not-a-number-aware reductions, used to run
    the row emission on examples; no theorem depends on how they sum. *)
Definition drop_nan (l : list float) : list float :=
  filter (fun x => negb (is_nan x)) l.

Definition seq_nanmean (l : list float) : float :=
  match drop_nan l with
  | [] => PrimFloat.nan
  | xs => PrimFloat.div (fold_left PrimFloat.add xs PrimFloat.zero)
                        (float_of_int (Py.len xs))
  end.

Definition seq_nanmax (l : list float) : float :=
  match drop_nan l with
  | [] => PrimFloat.nan
  | x :: xs => fold_left (fun a b => if PrimFloat.ltb a b then b else a) xs x
  end.

Definition seq_nanmin (l : list float) : float :=
  match drop_nan l with
  | [] => PrimFloat.nan
  | x :: xs => fold_left (fun a b => if PrimFloat.ltb b a then b else a) xs x
  end.

Definition example_args : Args :=
  {| threshold := 0.5; min_length := 1; merge_distance := 1;
     window_size := 2; scan_span := 3; epsilon := 1e-8 |}.

(** Window scores of two tracks: the first stays below the threshold. *)
Definition example_win_scores : matrix float :=
  [[0.1; 0.9]; [0.25; 0.75]; [-0.125; 0.5]]%float.

From Stdlib Require Import Ascii.

(* ------------------------------------------------------------------ *)
(** ** main: closing one (variant, ontology) unit *)
(* ------------------------------------------------------------------ *)

(** [r['chrom']==variant.chromosome and r['pos']==variant.position and
    r['ontology']==ontology] *)
Definition matches_unit (variant : Variant) (the_ontology : string)
    (r : ResultRow) : bool :=
  String.eqb (chrom r) (chromosome variant)
  && (pos r =? position variant)
  && String.eqb (ontology r) the_ontology.

(** [results_rows[-n_tracks:]] *)
Definition last_rows {A} (rows : list A) (n_tracks : Z) : list A :=
  Py.slice rows (- n_tracks) (Py.len rows).

(** [any(r['is_significant'] and ... for r in results_rows[-n_tracks:])] *)
Definition sig_any (variant : Variant) (the_ontology : string)
    (results_rows : list ResultRow) (n_tracks : Z) : bool :=
  existsb (fun r => is_significant r && matches_unit variant the_ontology r)
          (last_rows results_rows n_tracks).

(** [r['plot_file'] = str(plot_path)] *)
Definition set_plot_file (path : string) (r : ResultRow) : ResultRow :=
  {| chrom := chrom r;
     pos := pos r;
     ref := ref r;
     alt := alt r;
     ontology := ontology r;
     track_name := track_name r;
     is_significant := is_significant r;
     n_regions := n_regions r;
     region_index := region_index r;
     rel_start_bp := rel_start_bp r;
     rel_end_bp := rel_end_bp r;
     abs_start_bp := abs_start_bp r;
     abs_end_bp := abs_end_bp r;
     mean_score := mean_score r;
     max_score := max_score r;
     min_score := min_score r;
     direction := direction r;
     plot_file := Some path |}.

(** The back-fill loop: the rows are the dictionaries held by the list, so
    writing to the rows of the slice writes to the list. *)
Definition backfill_plot_file (variant : Variant) (the_ontology : string)
    (path : string) (results_rows : list ResultRow) (n_tracks : Z)
  : list ResultRow :=
  Py.fill_slice
    (fun r => if matches_unit variant the_ontology r
              then set_plot_file path r else r)
    results_rows (- n_tracks) (Py.len results_rows).

(** From [sig_any = ...] to the end of the loop body.  The plot itself is
    drawn elsewhere; [plot_path] is the string of the path it is saved to. *)
Definition finish_unit (plot_non_sig : bool) (variant : Variant)
    (the_ontology : string) (plot_path : string) (n_tracks : Z)
    (results_rows : list ResultRow) : list ResultRow :=
  if sig_any variant the_ontology results_rows n_tracks || plot_non_sig
  then backfill_plot_file variant the_ontology plot_path results_rows n_tracks
  else results_rows.

(** [win_scores.size] *)
Definition mat_size {F} (m : matrix F) : Z :=
  Py.len m * Z.of_nat (n_tracks_of m).

Section Unit.
Variables nanmean nanmax nanmin : list float -> float.
Variable args : Args.
Variable plot_non_sig : bool.

(** The body of [for _, row in variants_df.iterrows()] after the prediction
    [vout] has been obtained: [None] when the aligner raises, otherwise the
    rows list as the iteration leaves it.  The two [continue] branches (no
    track, no window) leave the list as it was.  An array without rows is
    read as having no track; the code skips it as well, at the second
    [continue] (for a window size of at least 1). *)
Definition process_unit (variant : Variant) (interval : Interval)
    (vout : VariantOutput) (the_ontology : string) (track_names : list string)
    (plot_path : string) (results_rows : list ResultRow)
  : option (list ResultRow) :=
  let alt_vals := alternate vout in
  let n_tracks := n_tracks_of alt_vals in
  if Nat.eqb n_tracks 0 then Some results_rows
  else
    let length_alter := length_alter_of variant in
    match (if negb (length_alter =? 0)
           then align_reference_for_indel variant interval vout length_alter
           else Some vout) with
    | None => None
    | Some vout1 =>
        let ref_vals := reference vout1 in
        let center_idx := position variant - interval_start interval in
        let start_idx := center_idx - scan_span args in
        let end_idx := center_idx + scan_span args in
        let win_scores :=
          compute_window_scores alt_vals ref_vals start_idx end_idx
            (window_size args) (epsilon args) in
        if mat_size win_scores =? 0 then Some results_rows
        else
          let rows :=
            scan_tracks nanmean nanmax nanmin args variant the_ontology
              track_names start_idx center_idx win_scores n_tracks results_rows in
          Some (finish_unit plot_non_sig variant the_ontology plot_path
                  (Z.of_nat n_tracks) rows)
    end.
End Unit.

(** The rows a track contributes: one per region, or one when it has none. *)
Definition track_regions (args : Args) (win_scores : matrix float) (ti : nat)
  : list region :=
  call_regions (column PrimFloat.nan win_scores ti)
    (threshold args) (min_length args) (merge_distance args).

(** Whether some track of the unit has a region. *)
Definition any_track_significant (args : Args) (win_scores : matrix float)
    (n_tracks : nat) : bool :=
  existsb (fun ti => Py.len (track_regions args win_scores ti) >? 0)
          (seq 0 n_tracks).

(** The number of rows all tracks of a unit contribute. *)
Definition unit_row_count (args : Args) (win_scores : matrix float)
    (n_tracks : nat) : Z :=
  fold_right Z.add 0
    (map (fun ti => Z.max 1 (Py.len (track_regions args win_scores ti)))
         (seq 0 n_tracks)).

(** [scores[i]] exceeds the threshold in absolute value. *)
Definition is_hit (scores : list float) (threshold : float) (i : Z) : Prop :=
  exists x, Py.get scores i = Some x
            /\ PrimFloat.ltb threshold (PrimFloat.abs x) = true.

(* ------------------------------------------------------------------ *)
(** ** _load_vcf *)
(* ------------------------------------------------------------------ *)

Definition tab : ascii := "009"%char.
Definition newline : ascii := "010"%char.
Definition comma : ascii := ","%char.

(** [s.split(sep)] for a separator of one character: never empty. *)
Fixpoint split_on (sep : ascii) (s : string) : list string :=
  match s with
  | EmptyString => [EmptyString]
  | String c s' =>
      if Ascii.eqb c sep then EmptyString :: split_on sep s'
      else match split_on sep s' with
           | [] => [String c EmptyString]  (* not reached *)
           | h :: t => String c h :: t
           end
  end.

(** [s.rstrip('\n')] *)
Fixpoint rstrip_newline (s : string) : string :=
  match s with
  | EmptyString => EmptyString
  | String c s' =>
      match rstrip_newline s' with
      | EmptyString => if Ascii.eqb c newline then EmptyString
                       else String c EmptyString
      | r => String c r
      end
  end.

(** [s.startswith('#')] *)
Definition starts_with_hash (s : string) : bool :=
  match s with
  | String c _ => Ascii.eqb c "#"%char
  | EmptyString => false
  end.

Inductive py_error :=
| IndexError
| ValueError.

(** The dictionary of columns handed to [pd.DataFrame]. *)
Record VcfTable := {
  CHROM : list string;
  POS : list Z;
  REF : list string;
  ALT : list string
}.

Section LoadVcf.
(** Python's [int] on a string: [None] when it raises ValueError. *)
Variable py_int : string -> option Z.

(** The fields of a data line, read in the order of the loop body. *)
Definition parse_vcf_line (ln : string)
  : (string * Z * string * string) + py_error :=
  let f := split_on tab (rstrip_newline ln) in
  match nth_error f 0 with
  | None => inr IndexError
  | Some f0 =>
      match nth_error f 1 with
      | None => inr IndexError
      | Some f1 =>
          match py_int f1 with
          | None => inr ValueError
          | Some p =>
              match nth_error f 3 with
              | None => inr IndexError
              | Some f3 =>
                  match nth_error f 4 with
                  | None => inr IndexError
                  | Some f4 =>
                      match split_on comma f4 with
                      | [] => inr IndexError  (* not reached *)
                      | a :: _ => inl (f0, p, f3, a)
                      end
                  end
              end
          end
      end
  end.

(** [for ln in fh], with the four lists it appends to. *)
Fixpoint load_vcf_loop (lines : list string)
    (chrom : list string) (pos_ : list Z) (ref_ alt_ : list string)
  : VcfTable + py_error :=
  match lines with
  | [] => inl {| CHROM := chrom; POS := pos_; REF := ref_; ALT := alt_ |}
  | ln :: rest =>
      if starts_with_hash ln then load_vcf_loop rest chrom pos_ ref_ alt_
      else match parse_vcf_line ln with
           | inr e => inr e
           | inl (c, p, r, a) =>
               load_vcf_loop rest (chrom ++ [c]) (pos_ ++ [p])
                 (ref_ ++ [r]) (alt_ ++ [a])
           end
  end.

(** [_load_vcf], on the lines the file yields. *)
Definition _load_vcf (lines : list string) : VcfTable + py_error :=
  load_vcf_loop lines [] [] [] [].
End LoadVcf.

Definition is_data_line (ln : string) : bool := negb (starts_with_hash ln).

(** Whether the character occurs in the string. *)
Fixpoint contains (c : ascii) (s : string) : bool :=
  match s with
  | EmptyString => false
  | String c' s' => Ascii.eqb c' c || contains c s'
  end.

(** The tab-separated fields of a line, as the loop body sees them. *)
Definition vcf_fields (ln : string) : list string :=
  split_on tab (rstrip_newline ln).

(** [int] on a string of decimal digits, for running the loader on examples;
    no theorem depends on it. *)
Definition decimal_int (s : string) : option Z :=
  match DecimalString.NilEmpty.uint_of_string s with
  | Some Decimal.Nil => None
  | Some u => Some (Z.of_uint u)
  | None => None
  end.

(** A header, two records (the second with two alternate alleles and a
    comment line before it), and the same file with an empty last line. *)
Definition example_vcf : list string :=
  [String "#" "CHROM" ++ String tab "POS" ++ String newline "";
   "chr1" ++ String tab "100" ++ String tab "." ++ String tab "A"
     ++ String tab "G" ++ String newline "";
   String "#" " note" ++ String newline "";
   "chr2" ++ String tab "2500" ++ String tab "rs1" ++ String tab "AC"
     ++ String tab "A,ACC" ++ String tab "50" ++ String newline ""]%string.

Definition example_vcf_blank_end : list string :=
  example_vcf ++ [String newline ""].

(** Window scores of two tracks: the first has two separate regions, the
    second none. *)
Definition example_two_region_scores : matrix float :=
  [[0.9; 0.1]; [0; 0.1]; [0; 0.1]; [0; 0.1]; [0.9; 0.1]]%float.

(** Arguments with a window wider than twice the scan span. *)
Definition example_args_wide_window : Args :=
  {| threshold := 0.5; min_length := 1; merge_distance := 1;
     window_size := 7; scan_span := 3; epsilon := 1e-8 |}.

(** A prediction of one track over ten positions whose alternate signal is
    five times the reference at positions 3 to 5. *)
Definition example_prediction : VariantOutput :=
  {| reference := [[1]; [1]; [1]; [1]; [1]; [1]; [1]; [1]; [1]; [1]]%float;
     alternate := [[1]; [1]; [1]; [5]; [5]; [5]; [1]; [1]; [1]; [1]]%float |}.

Definition example_snv : Variant := variant_at 5 "A" "C".

(* ------------------------------------------------------------------ *)
(** ** Facts about slices and element-wise operations *)
(* ------------------------------------------------------------------ *)

Section SeqFacts.
Context {A : Type}.

Lemma norm_index_in_range (n i : Z) :
  0 <= i <= n -> Py.norm_index n i = i.
Proof.
  intros Hi. unfold Py.norm_index.
  destruct (Z.ltb_spec i 0); lia.
Qed.

Lemma slice_in_range (l : list A) (a b : Z) :
  0 <= a -> a <= b -> b <= Py.len l ->
  Py.slice l a b = firstn (Z.to_nat (b - a)) (skipn (Z.to_nat a) l).
Proof.
  intros Ha Hab Hb. unfold Py.slice.
  rewrite !norm_index_in_range by lia. reflexivity.
Qed.

Lemma slice_length (l : list A) (a b : Z) :
  0 <= a -> a <= b -> b <= Py.len l ->
  length (Py.slice l a b) = Z.to_nat (b - a).
Proof.
  intros Ha Hab Hb. rewrite slice_in_range by assumption.
  rewrite length_firstn, length_skipn. unfold Py.len in Hb. lia.
Qed.

Lemma nth_error_slice (l : list A) (a b : Z) (i : nat) :
  0 <= a -> a <= b -> b <= Py.len l -> (i < Z.to_nat (b - a))%nat ->
  nth_error (Py.slice l a b) i = nth_error l (Z.to_nat a + i).
Proof.
  intros Ha Hab Hb Hi. rewrite slice_in_range by assumption.
  rewrite nth_error_firstn.
  destruct (Nat.ltb_spec i (Z.to_nat (b - a))); [|lia].
  apply nth_error_skipn.
Qed.

Lemma firstn_plus (a b : nat) (l : list A) :
  firstn (a + b) l = firstn a l ++ firstn b (skipn a l).
Proof.
  revert l. induction a as [|a IH]; intros [|x l]; simpl; auto.
  - rewrite firstn_nil. reflexivity.
  - rewrite IH. reflexivity.
Qed.

Lemma get_nat (l : list A) (i : Z) :
  0 <= i -> Py.get l i = nth_error l (Z.to_nat i).
Proof.
  intros Hi. unfold Py.get. destruct (Z.ltb_spec i 0); [lia|reflexivity].
Qed.
End SeqFacts.

Section ZipFacts.
Context {A B C : Type}.

Lemma zip_with_length (f : A -> B -> C) xs ys :
  length (Py.zip_with f xs ys) = Nat.min (length xs) (length ys).
Proof.
  revert ys. induction xs as [|x xs IH]; intros [|y ys]; simpl; auto.
Qed.

Lemma nth_error_zip_with (f : A -> B -> C) xs ys i :
  nth_error (Py.zip_with f xs ys) i =
  match nth_error xs i, nth_error ys i with
  | Some x, Some y => Some (f x y)
  | _, _ => None
  end.
Proof.
  revert ys i. induction xs as [|x xs IH]; intros [|y ys] [|i]; simpl; auto.
  - destruct (nth_error xs i); reflexivity.
Qed.
End ZipFacts.

Section EntryFacts.
Context {F : Type} `{Arith F}.

Lemma entry_mat_map (f : F -> F) (a : matrix F) j c :
  entry (mat_map f a) j c = option_map f (entry a j c).
Proof.
  unfold entry, mat_map, Py.get. destruct (j <? 0); [reflexivity|].
  rewrite nth_error_map. destruct (nth_error a (Z.to_nat j)); simpl; [|reflexivity].
  apply nth_error_map.
Qed.

Lemma entry_mat_zip (f : F -> F -> F) (a b : matrix F) j c :
  entry (mat_zip f a b) j c =
  match entry a j c, entry b j c with
  | Some x, Some y => Some (f x y)
  | _, _ => None
  end.
Proof.
  unfold entry, mat_zip, Py.get. destruct (j <? 0); [reflexivity|].
  rewrite nth_error_zip_with.
  destruct (nth_error a (Z.to_nat j)) as [ra|], (nth_error b (Z.to_nat j)) as [rb|];
    try reflexivity.
  - apply nth_error_zip_with.
  - destruct (nth_error ra c); reflexivity.
Qed.

Lemma entry_slice (m : matrix F) (lo hi j : Z) c :
  0 <= lo -> lo <= hi -> hi <= Py.len m -> 0 <= j < hi - lo ->
  entry (Py.slice m lo hi) j c = entry m (lo + j) c.
Proof.
  intros Hlo Hhi Hlen Hj. unfold entry.
  rewrite !get_nat by lia.
  rewrite nth_error_slice by lia.
  replace (Z.to_nat lo + Z.to_nat j)%nat with (Z.to_nat (lo + j)) by lia.
  reflexivity.
Qed.

Lemma cumsum_from_entry (t c : nat) :
  forall (rows : matrix F) (acc : list F) (a0 : F) (k : nat),
    Forall (fun r => length r = t) rows -> (c < t)%nat ->
    nth_error acc c = Some a0 -> (k < length rows)%nat ->
    exists r, nth_error (cumsum_from acc rows) k = Some r /\
              nth_error r c =
              Some (fold_left fadd (firstn (S k) (column f0 rows c)) a0).
Proof.
  induction rows as [|r rs IH]; intros acc a0 k Hw Hc Hacc Hk; simpl in Hk; [lia|].
  inversion Hw as [|? ? Hr Hrs]; subst.
  assert (Hrc : nth_error r c = Some (nth c r f0))
    by (apply nth_error_nth'; lia).
  assert (Hacc' : nth_error (row_add acc r) c = Some (fadd a0 (nth c r f0))).
  { unfold row_add. rewrite nth_error_zip_with, Hacc, Hrc. reflexivity. }
  destruct k as [|k]; simpl.
  - eexists; split; [reflexivity|]. exact Hacc'.
  - destruct (IH (row_add acc r) _ k Hrs Hc Hacc') as [r' [E1 E2]]; [lia|].
    exists r'. split; [exact E1|]. exact E2.
Qed.

Lemma cumsum_zero_length (t : nat) (vals : matrix F) :
  Py.len (cumsum_zero t vals) = Py.len vals + 1.
Proof.
  unfold cumsum_zero, cumsum, Py.len. simpl.
  assert (E : forall rows acc, length (cumsum_from acc rows) = length rows).
  { induction rows as [|r rs IH]; intros acc; simpl; auto. }
  rewrite E. lia.
Qed.

Lemma cumsum_zero_entry (vals : matrix F) (n : Z) (t c : nat) (k : Z) :
  has_shape vals n t -> (c < t)%nat -> 0 <= k <= n ->
  entry (cumsum_zero t vals) k c = Some (prefix_sum vals c k).
Proof.
  intros [Hn Hw] Hc Hk. unfold entry, prefix_sum. rewrite get_nat by lia.
  unfold cumsum_zero, cumsum.
  destruct (Z.to_nat k) as [|k'] eqn:Ek; simpl.
  - apply nth_error_repeat. exact Hc.
  - destruct (cumsum_from_entry t c vals (repeat f0 t) f0 k' Hw Hc) as [r [E1 E2]].
    + apply nth_error_repeat. exact Hc.
    + unfold Py.len in Hn. lia.
    + rewrite E1. exact E2.
Qed.

Lemma window_means_entry (vals : matrix F) (n : Z) (t c : nat) (lo w nw j : Z) :
  has_shape vals n t -> (c < t)%nat ->
  0 <= lo -> 1 <= w -> lo + w + nw <= n + 1 -> 0 <= j < nw ->
  entry (window_means (cumsum_zero t vals) lo w nw) j c =
  Some (fdiv (fsub (prefix_sum vals c (lo + w + j)) (prefix_sum vals c (lo + j)))
             (of_int w)).
Proof.
  intros Hs Hc Hlo Hw Hn Hj. unfold window_means.
  pose proof (cumsum_zero_length t vals) as Hlen.
  destruct Hs as [Hrows Hwid]. rewrite Hrows in Hlen.
  rewrite entry_mat_map, entry_mat_zip.
  rewrite !entry_slice by lia.
  rewrite (cumsum_zero_entry vals n t c) by (try split; auto; lia).
  rewrite (cumsum_zero_entry vals n t c) by (try split; auto; lia).
  reflexivity.
Qed.

(** Every entry of the result, in terms of the prefix sums it is read from. *)
Lemma compute_window_scores_entry (alt_vals ref_vals : matrix F) (n : Z) (t c : nat)
    (start_idx end_idx w : Z) (eps : F) (j : Z) :
  has_shape alt_vals n t -> has_shape ref_vals n t -> (c < t)%nat ->
  1 <= w -> 0 <= j < n_windows_of n start_idx end_idx w ->
  let s := clip_start start_idx in
  entry (compute_window_scores alt_vals ref_vals start_idx end_idx w eps) j c =
  Some (fsub
          (fdiv (fdiv (fsub (prefix_sum alt_vals c (s + w + j))
                            (prefix_sum alt_vals c (s + j))) (of_int w))
                (fadd (fdiv (fsub (prefix_sum ref_vals c (s + w + j))
                                  (prefix_sum ref_vals c (s + j))) (of_int w))
                      eps))
          f1).
Proof.
  intros Ha Hr Hc Hw Hj s. unfold compute_window_scores.
  unfold n_windows_of, clip_start, clip_end in Hj. subst s. unfold clip_start.
  assert (Hn : Py.len alt_vals = n) by apply Ha. rewrite Hn.
  assert (Ht : n_tracks_of alt_vals = t).
  { destruct Ha as [Hl Hwid]. destruct alt_vals as [|r rs].
    - unfold Py.len in Hl. simpl in Hl. lia.
    - inversion Hwid; subst. reflexivity. }
  rewrite Ht.
  replace (if start_idx <? 0 then 0 else start_idx) with (Z.max 0 start_idx)
    by (destruct (Z.ltb_spec start_idx 0); lia).
  replace (if end_idx >? n then n else end_idx) with (Z.min n end_idx)
    by (rewrite Z.gtb_ltb; destruct (Z.ltb_spec n end_idx); lia).
  destruct (Z.leb_spec (Z.min n end_idx - Z.max 0 start_idx - w + 1) 0); [lia|].
  rewrite entry_mat_zip.
  rewrite (window_means_entry alt_vals n t c) by (auto; lia).
  rewrite (window_means_entry ref_vals n t c) by (auto; lia).
  reflexivity.
Qed.
End EntryFacts.

(* ------------------------------------------------------------------ *)
(** ** compute_window_scores: number of windows *)
(* ------------------------------------------------------------------ *)

Section WindowCount.
Context {F : Type} `{Arith F}.

Lemma window_means_length (cs : matrix F) (lo w nw : Z) :
  0 <= lo -> 0 <= w -> 0 <= nw -> lo + w + nw <= Py.len cs ->
  length (window_means cs lo w nw) = Z.to_nat nw.
Proof.
  intros Hlo Hw Hnw Hlen. unfold window_means, mat_map, mat_zip.
  rewrite length_map, zip_with_length, !slice_length by lia. lia.
Qed.

(** C7: for reference and alternate arrays of one shape, start is clipped up
    to 0 and end down to the number of rows, and the result has exactly
    max(0, (clipped end - clipped start) - window_size + 1) rows; when that
    count is not positive the result is the empty array. *)
Theorem compute_window_scores_row_count
    (alt_vals ref_vals : matrix F) (n : Z) (t : nat)
    (start_idx end_idx window_size : Z) (eps : F) :
  has_shape alt_vals n t -> has_shape ref_vals n t -> 1 <= window_size ->
  let n_windows := Z.min n end_idx - Z.max 0 start_idx - window_size + 1 in
  Py.len (compute_window_scores alt_vals ref_vals start_idx end_idx window_size eps)
    = Z.max 0 n_windows
  /\ (n_windows <= 0 ->
      compute_window_scores alt_vals ref_vals start_idx end_idx window_size eps = []).
Proof.
  intros [Ha _] [Hr _] Hw n_windows. unfold compute_window_scores. rewrite Ha.
  replace (if start_idx <? 0 then 0 else start_idx) with (Z.max 0 start_idx)
    by (destruct (Z.ltb_spec start_idx 0); lia).
  replace (if end_idx >? n then n else end_idx) with (Z.min n end_idx)
    by (rewrite Z.gtb_ltb; destruct (Z.ltb_spec n end_idx); lia).
  fold n_windows.
  destruct (Z.leb_spec n_windows 0) as [Hle|Hgt].
  - split; [unfold Py.len; simpl; lia | reflexivity].
  - split; [|lia].
    unfold Py.len, mat_zip. rewrite zip_with_length.
    pose proof (cumsum_zero_length (n_tracks_of alt_vals) alt_vals) as La.
    pose proof (cumsum_zero_length (n_tracks_of alt_vals) ref_vals) as Lr.
    rewrite !window_means_length by (unfold n_windows in *; lia).
    lia.
Qed.
End WindowCount.

Lemma compute_window_scores_row_count_witness :
  let alt_vals := [[1]; [2]; [4]; [8]; [16]]%float in
  let ref_vals := [[1]; [1]; [2]; [2]; [4]]%float in
  has_shape alt_vals 5 1 /\ has_shape ref_vals 5 1 /\ 1 <= 2 /\
  Py.len (compute_window_scores alt_vals ref_vals (-3) 9 2 1e-8%float) = 4.
Proof.
  intros alt_vals ref_vals.
  assert (Ha : has_shape alt_vals 5 1) by (split; [reflexivity | repeat constructor]).
  assert (Hr : has_shape ref_vals 5 1) by (split; [reflexivity | repeat constructor]).
  assert (Hw : 1 <= 2) by lia.
  split; [exact Ha|]. split; [exact Hr|]. split; [exact Hw|].
  exact (proj1 (compute_window_scores_row_count alt_vals ref_vals 5 1 (-3) 9 2
                  1e-8%float Ha Hr Hw)).
Defined.

(* ------------------------------------------------------------------ *)
(** ** compute_window_scores: prefix sums against per-window sums *)
(* ------------------------------------------------------------------ *)

(** C3 (amended): every entry of the result is the mean-ratio formula applied
    to the differences of the binary64 cumulative sums; it is the per-window
    value (mean of the alternate signal over the window starting at
    clipped start + j, over the reference window mean plus epsilon, minus one)
    whenever, for both arrays, that difference is the window's own sum, that
    is whenever the cumulative sums have rounded nothing away. *)
Theorem compute_window_scores_naive_when_sums_exact
    (alt_vals ref_vals : matrix float) (n : Z) (t c : nat)
    (start_idx end_idx window_size : Z) (eps : float) (j : Z) :
  has_shape alt_vals n t -> has_shape ref_vals n t -> (c < t)%nat ->
  1 <= window_size ->
  0 <= j < Z.min n end_idx - Z.max 0 start_idx - window_size + 1 ->
  let p := Z.max 0 start_idx + j in
  let w := float_of_int window_size in
  let d_alt := (prefix_sum alt_vals c (p + window_size) - prefix_sum alt_vals c p)%float in
  let d_ref := (prefix_sum ref_vals c (p + window_size) - prefix_sum ref_vals c p)%float in
  entry (compute_window_scores alt_vals ref_vals start_idx end_idx window_size eps) j c
  = Some ((d_alt / w) / (d_ref / w + eps) - 1)%float
  /\ (prefix_difference_exact alt_vals c p window_size ->
      prefix_difference_exact ref_vals c p window_size ->
      entry (compute_window_scores alt_vals ref_vals start_idx end_idx window_size eps)
            j c
      = Some (naive_score alt_vals ref_vals c p window_size eps)).
Proof.
  intros Ha Hr Hc Hw Hj p w d_alt d_ref.
  assert (E : entry (compute_window_scores alt_vals ref_vals start_idx end_idx
                       window_size eps) j c
              = Some ((d_alt / w) / (d_ref / w + eps) - 1)%float).
  { rewrite (compute_window_scores_entry alt_vals ref_vals n t c) by assumption.
    unfold clip_start, d_alt, d_ref, p, w.
    replace (Z.max 0 start_idx + window_size + j)
      with (Z.max 0 start_idx + j + window_size) by lia.
    reflexivity. }
  split; [exact E|].
  intros Hxa Hxr. rewrite E. unfold d_alt, d_ref.
  unfold prefix_difference_exact in Hxa, Hxr. simpl fsub in Hxa, Hxr.
  rewrite Hxa, Hxr. reflexivity.
Qed.

Lemma compute_window_scores_naive_when_sums_exact_witness :
  let alt_vals := [[1]; [2]; [4]; [8]; [16]]%float in
  let ref_vals := [[1]; [1]; [2]; [2]; [4]]%float in
  (has_shape alt_vals 5 1 /\ has_shape ref_vals 5 1 /\ (0 < 1)%nat /\ 1 <= 2
   /\ 0 <= 1 < Z.min 5 9 - Z.max 0 (-3) - 2 + 1
   /\ prefix_difference_exact alt_vals 0 (Z.max 0 (-3) + 1) 2
   /\ prefix_difference_exact ref_vals 0 (Z.max 0 (-3) + 1) 2)
  /\ entry (compute_window_scores alt_vals ref_vals (-3) 9 2 1e-8%float) 1 0
     = Some (naive_score alt_vals ref_vals 0 (Z.max 0 (-3) + 1) 2 1e-8%float).
Proof.
  intros alt_vals ref_vals.
  assert (Ha : has_shape alt_vals 5 1) by (split; [reflexivity | repeat constructor]).
  assert (Hr : has_shape ref_vals 5 1) by (split; [reflexivity | repeat constructor]).
  assert (Hc : (0 < 1)%nat) by lia.
  assert (Hw : 1 <= 2) by lia.
  assert (Hj : 0 <= 1 < Z.min 5 9 - Z.max 0 (-3) - 2 + 1) by (simpl; lia).
  assert (Hxa : prefix_difference_exact alt_vals 0 (Z.max 0 (-3) + 1) 2)
    by (vm_compute; reflexivity).
  assert (Hxr : prefix_difference_exact ref_vals 0 (Z.max 0 (-3) + 1) 2)
    by (vm_compute; reflexivity).
  split; [tauto|].
  exact (proj2 (compute_window_scores_naive_when_sums_exact alt_vals ref_vals 5 1 0
                  (-3) 9 2 1e-8%float 1 Ha Hr Hc Hw Hj) Hxa Hxr).
Defined.

(** C3 as stated fails in binary64: after a large sample the cumulative sums
    absorb the later ones, so the window holding the single sample 1.0 scores
    -1 although its alternate and reference means are both 1. *)
Lemma compute_window_scores_not_naive_in_binary64 :
  let alt_vals := [[0x1p60]; [1]; [1]]%float in
  let ref_vals := [[1]; [1]; [1]]%float in
  has_shape alt_vals 3 1 /\ has_shape ref_vals 3 1 /\
  entry (compute_window_scores alt_vals ref_vals 0 3 1 1e-8%float) 1 0
    = Some (-1)%float /\
  entry (compute_window_scores alt_vals ref_vals 0 3 1 1e-8%float) 1 0
    <> Some (naive_score alt_vals ref_vals 0 (Z.max 0 0 + 1) 1 1e-8%float).
Proof.
  intros alt_vals ref_vals.
  split; [split; [reflexivity | repeat constructor]|].
  split; [split; [reflexivity | repeat constructor]|].
  split; [vm_compute; reflexivity|].
  intros E.
  apply (f_equal (fun o => match o with
                           | Some x => PrimFloat.ltb x (-0.5)%float
                           | None => false
                           end)) in E.
  vm_compute in E. discriminate E.
Qed.

(* ------------------------------------------------------------------ *)
(** ** compute_window_scores: not-a-number samples *)
(* ------------------------------------------------------------------ *)

Lemma is_nan_spec (x : float) : is_nan x = true <-> Prim2SF x = S754_nan.
Proof.
  unfold is_nan, PrimFloat.is_nan. rewrite FloatAxioms.eqb_spec. unfold SFeqb.
  destruct (Prim2SF x) as [s|s| |s m e]; simpl.
  - split; discriminate.
  - destruct s; split; discriminate.
  - split; reflexivity.
  - rewrite Z.compare_refl, Pos.compare_cont_refl.
    destruct s; split; discriminate.
Qed.

Lemma nan_add_l x y : is_nan x = true -> is_nan (x + y)%float = true.
Proof.
  rewrite !is_nan_spec. intros E. rewrite add_spec, E. reflexivity.
Qed.

Lemma nan_add_r x y : is_nan y = true -> is_nan (x + y)%float = true.
Proof.
  rewrite !is_nan_spec. intros E. rewrite add_spec, E.
  destruct (Prim2SF x); reflexivity.
Qed.

Lemma nan_sub_l x y : is_nan x = true -> is_nan (x - y)%float = true.
Proof.
  rewrite !is_nan_spec. intros E. rewrite sub_spec, E. reflexivity.
Qed.

Lemma nan_sub_r x y : is_nan y = true -> is_nan (x - y)%float = true.
Proof.
  rewrite !is_nan_spec. intros E. rewrite sub_spec, E.
  destruct (Prim2SF x); reflexivity.
Qed.

Lemma nan_div_l x y : is_nan x = true -> is_nan (x / y)%float = true.
Proof.
  rewrite !is_nan_spec. intros E. rewrite div_spec, E. reflexivity.
Qed.

Lemma nan_div_r x y : is_nan y = true -> is_nan (x / y)%float = true.
Proof.
  rewrite !is_nan_spec. intros E. rewrite div_spec, E.
  destruct (Prim2SF x); reflexivity.
Qed.

Lemma fold_left_nan_acc (l : list float) (a : float) :
  is_nan a = true -> is_nan (fold_left fadd l a) = true.
Proof.
  revert a. induction l as [|y l IH]; intros a Ha; simpl; [exact Ha|].
  apply IH. apply nan_add_l. exact Ha.
Qed.

Lemma fold_left_meets_nan (l : list float) :
  forall (a : float) (p k : nat) (x : float),
    nth_error l p = Some x -> is_nan x = true -> (p < k)%nat ->
    is_nan (fold_left fadd (firstn k l) a) = true.
Proof.
  induction l as [|y l IH]; intros a p k x Hp Hx Hk.
  - destruct p; discriminate Hp.
  - destruct k as [|k]; [lia|]. simpl.
    destruct p as [|p]; simpl in Hp.
    + injection Hp as ->. apply fold_left_nan_acc, nan_add_r, Hx.
    + apply (IH _ p k x Hp Hx). lia.
Qed.

Lemma entry_column {F} (d : F) (vals : matrix F) (p : Z) (c : nat) (x : F) :
  entry vals p c = Some x ->
  0 <= p /\ nth_error (column d vals c) (Z.to_nat p) = Some x.
Proof.
  unfold entry, Py.get, column. intros E.
  destruct (Z.ltb_spec p 0) as [Hneg|Hpos]; [discriminate E|].
  split; [exact Hpos|].
  rewrite nth_error_map.
  destruct (nth_error vals (Z.to_nat p)) as [r|]; [simpl|discriminate E].
  f_equal. apply nth_error_nth. exact E.
Qed.

Lemma prefix_sum_nan (vals : matrix float) (p k : Z) (c : nat) (x : float) :
  entry vals p c = Some x -> is_nan x = true -> p < k ->
  is_nan (prefix_sum vals c k) = true.
Proof.
  intros E Hx Hk. destruct (entry_column f0 vals p c x E) as [Hp Hcol].
  unfold prefix_sum.
  apply (fold_left_meets_nan _ _ (Z.to_nat p) _ x Hcol Hx). lia.
Qed.

(** C4: a not-a-number sample at position p of a track makes the score of
    every window that ends after p not-a-number: the windows whose span
    includes p and every window that starts after p, whatever its own
    samples are. *)
Theorem nan_sample_reaches_later_windows
    (alt_vals ref_vals : matrix float) (n : Z) (t c : nat)
    (start_idx end_idx window_size : Z) (eps : float) (p : Z) (x : float) (j : Z) :
  has_shape alt_vals n t -> has_shape ref_vals n t -> (c < t)%nat ->
  1 <= window_size ->
  entry alt_vals p c = Some x \/ entry ref_vals p c = Some x ->
  is_nan x = true ->
  0 <= j < Z.min n end_idx - Z.max 0 start_idx - window_size + 1 ->
  p < Z.max 0 start_idx + j + window_size ->
  exists y,
    entry (compute_window_scores alt_vals ref_vals start_idx end_idx window_size eps)
          j c = Some y
    /\ is_nan y = true.
Proof.
  intros Ha Hr Hc Hw Hp Hx Hj Hlt.
  rewrite (compute_window_scores_entry alt_vals ref_vals n t c) by assumption.
  eexists. split; [reflexivity|].
  unfold clip_start. simpl.
  apply nan_sub_l.
  destruct Hp as [Hp|Hp].
  - apply nan_div_l, nan_div_l, nan_sub_l.
    apply (prefix_sum_nan alt_vals p _ c x Hp Hx). lia.
  - apply nan_div_r, nan_add_l, nan_div_l, nan_sub_l.
    apply (prefix_sum_nan ref_vals p _ c x Hp Hx). lia.
Qed.

Lemma nan_sample_reaches_later_windows_witness :
  let alt_vals := [[1]; [PrimFloat.nan]; [1]; [2]; [3]]%float in
  let ref_vals := [[1]; [1]; [1]; [1]; [1]]%float in
  (has_shape alt_vals 5 1 /\ has_shape ref_vals 5 1 /\ (0 < 1)%nat /\ 1 <= 2 /\
   (entry alt_vals 1 0 = Some PrimFloat.nan \/ entry ref_vals 1 0 = Some PrimFloat.nan) /\
   is_nan PrimFloat.nan = true /\
   0 <= 3 < Z.min 5 5 - Z.max 0 0 - 2 + 1 /\ 1 < Z.max 0 0 + 3 + 2) /\
  (exists y, entry (compute_window_scores alt_vals ref_vals 0 5 2 1e-8%float) 3 0
             = Some y /\ is_nan y = true) /\
  Py.slice (column f0 alt_vals 0) 3 5 = [2; 3]%float /\
  is_nan (naive_score alt_vals ref_vals 0 3 2 1e-8%float) = false.
Proof.
  intros alt_vals ref_vals.
  assert (Ha : has_shape alt_vals 5 1) by (split; [reflexivity | repeat constructor]).
  assert (Hr : has_shape ref_vals 5 1) by (split; [reflexivity | repeat constructor]).
  assert (Hc : (0 < 1)%nat) by lia.
  assert (Hw : 1 <= 2) by lia.
  assert (Hp : entry alt_vals 1 0 = Some PrimFloat.nan
               \/ entry ref_vals 1 0 = Some PrimFloat.nan) by (left; reflexivity).
  assert (Hx : is_nan PrimFloat.nan = true) by reflexivity.
  assert (Hj : 0 <= 3 < Z.min 5 5 - Z.max 0 0 - 2 + 1) by (simpl; lia).
  assert (Hlt : 1 < Z.max 0 0 + 3 + 2) by (simpl; lia).
  split; [tauto|].
  split.
  - exact (nan_sample_reaches_later_windows alt_vals ref_vals 5 1 0 0 5 2
             1e-8%float 1 PrimFloat.nan 3 Ha Hr Hc Hw Hp Hx Hj Hlt).
  - split; vm_compute; reflexivity.
Defined.

(* ------------------------------------------------------------------ *)
(** ** call_regions: the two loops without their accumulators *)
(* ------------------------------------------------------------------ *)

Lemma compress_loop_runs (rest : list Z) :
  forall regions start prev,
    compress_loop regions start prev rest = regions ++ runs start prev rest.
Proof.
  induction rest as [|i rest IH]; intros regions start prev; simpl.
  - reflexivity.
  - destruct (i =? prev + 1).
    + apply IH.
    + rewrite IH, <- app_assoc. reflexivity.
Qed.

Lemma close_region_app min_length merged cur_s cur_e :
  close_region min_length merged cur_s cur_e
  = merged ++ close_region min_length [] cur_s cur_e.
Proof.
  unfold close_region. destruct (cur_e - cur_s + 1 >=? min_length).
  - reflexivity.
  - rewrite app_nil_r. reflexivity.
Qed.

Lemma merge_loop_sweep min_length merge_distance (rest : list region) :
  forall merged cur_s cur_e,
    merge_loop min_length merge_distance merged cur_s cur_e rest
    = merged ++ sweep min_length merge_distance cur_s cur_e rest.
Proof.
  induction rest as [|[s e] rest IH]; intros merged cur_s cur_e; simpl.
  - apply close_region_app.
  - destruct (s - cur_e <=? merge_distance).
    + apply IH.
    + rewrite IH, close_region_app, <- app_assoc. reflexivity.
Qed.

Lemma call_regions_sweep scores threshold min_length merge_distance :
  call_regions scores threshold min_length merge_distance
  = match raw_runs scores threshold with
    | [] => []
    | (s, e) :: rs => sweep min_length merge_distance s e rs
    end.
Proof.
  unfold call_regions, call_regions_from, raw_runs.
  destruct (where_abs_gt 0 scores threshold) as [|i0 rest]; [reflexivity|].
  rewrite compress_loop_runs. simpl.
  destruct (runs i0 i0 rest) as [|[s e] rs]; [reflexivity|].
  apply merge_loop_sweep.
Qed.

Lemma close_region_filter min_length cur_s cur_e :
  close_region min_length [] cur_s cur_e
  = filter (long_enough min_length) [(cur_s, cur_e)].
Proof.
  unfold close_region, long_enough, region_length. simpl.
  destruct (cur_e - cur_s + 1 >=? min_length); reflexivity.
Qed.

Lemma sweep_filter min_length merge_distance (rest : list region) :
  forall cur_s cur_e,
    sweep min_length merge_distance cur_s cur_e rest
    = filter (long_enough min_length) (merge_only merge_distance cur_s cur_e rest).
Proof.
  induction rest as [|[s e] rest IH]; intros cur_s cur_e; simpl sweep; simpl merge_only.
  - apply close_region_filter.
  - destruct (s - cur_e <=? merge_distance).
    + apply IH.
    + rewrite IH, close_region_filter.
      change ((cur_s, cur_e) :: merge_only merge_distance s e rest)
        with ([(cur_s, cur_e)] ++ merge_only merge_distance s e rest).
      rewrite filter_app. reflexivity.
Qed.

(* ------------------------------------------------------------------ *)
(** ** call_regions: order and separation *)
(* ------------------------------------------------------------------ *)

Lemma ascending_from_weaken (idx : list Z) (b b' : Z) :
  b' <= b -> ascending_from b idx -> ascending_from b' idx.
Proof.
  destruct idx as [|i tl]; simpl; [auto|]. intros Hb [Hi Htl]. split; [lia|exact Htl].
Qed.

Lemma where_abs_gt_ascending (scores : list float) (threshold : float) :
  forall i, ascending_from (i - 1) (where_abs_gt i scores threshold).
Proof.
  induction scores as [|x xs IH]; intros i; simpl; [exact I|].
  destruct (PrimFloat.ltb threshold (PrimFloat.abs x)); simpl.
  - split; [lia|]. specialize (IH (i + 1)).
    replace (i + 1 - 1) with i in IH by lia. exact IH.
  - apply (ascending_from_weaken _ (i + 1 - 1)); [lia|apply IH].
Qed.

Lemma runs_gapped (rest : list Z) :
  forall b start prev,
    b + 1 < start -> start <= prev -> ascending_from prev rest ->
    gapped b (runs start prev rest).
Proof.
  induction rest as [|i rest IH]; intros b start prev Hb Hsp Hasc; simpl.
  - auto.
  - destruct Hasc as [Hi Hrest]. destruct (Z.eqb_spec i (prev + 1)) as [E|NE].
    + apply IH; [lia|lia|exact Hrest].
    + simpl. split; [lia|]. split; [lia|].
      apply IH; [lia|lia|exact Hrest].
Qed.

Lemma raw_runs_gapped scores threshold :
  match raw_runs scores threshold with
  | [] => True
  | (s, e) :: rs => s <= e /\ gapped e rs
  end.
Proof.
  unfold raw_runs.
  pose proof (where_abs_gt_ascending scores threshold 0) as Hasc.
  destruct (where_abs_gt 0 scores threshold) as [|i0 rest]; [exact I|].
  destruct Hasc as [_ Hrest].
  pose proof (runs_gapped rest (i0 - 2) i0 i0 ltac:(lia) ltac:(lia) Hrest) as G.
  destruct (runs i0 i0 rest) as [|[s e] rs]; [exact I|].
  simpl in G. tauto.
Qed.

Lemma sweep_separated min_length merge_distance (rest : list region) :
  forall b cur_s cur_e,
    b + 1 < cur_s -> merge_distance < cur_s - b -> cur_s <= cur_e ->
    gapped cur_e rest ->
    separated min_length merge_distance b
      (sweep min_length merge_distance cur_s cur_e rest).
Proof.
  induction rest as [|[s e] rest IH]; intros b cur_s cur_e Hb Hmd Hse Hg; simpl.
  - unfold close_region. destruct (Z.geb_spec (cur_e - cur_s + 1) min_length); simpl.
    + repeat split; lia.
    + exact I.
  - destruct Hg as [Hs [Hle Hg]].
    destruct (Z.leb_spec (s - cur_e) merge_distance) as [Hm|Hm].
    + apply IH; [lia|lia|lia|exact Hg].
    + unfold close_region.
      destruct (Z.geb_spec (cur_e - cur_s + 1) min_length); simpl.
      * repeat split; try lia. apply IH; [lia|lia|lia|exact Hg].
      * apply IH; [lia|lia|lia|exact Hg].
Qed.

Lemma call_regions_separated scores threshold min_length merge_distance :
  exists b,
    separated min_length merge_distance b
      (call_regions scores threshold min_length merge_distance).
Proof.
  rewrite call_regions_sweep.
  pose proof (raw_runs_gapped scores threshold) as G.
  destruct (raw_runs scores threshold) as [|[s e] rs].
  - exists 0. exact I.
  - destruct G as [Hse Hg].
    exists (s - 2 - Z.max 0 merge_distance).
    apply sweep_separated; [lia|lia|exact Hse|exact Hg].
Qed.

Lemma separated_pairs min_length merge_distance (rs : list region) :
  forall b, separated min_length merge_distance b rs ->
  forall i r1 r2,
    nth_error rs i = Some r1 -> nth_error rs (S i) = Some r2 ->
    snd r1 < fst r2 /\ merge_distance < fst r2 - snd r1.
Proof.
  induction rs as [|[s e] tl IH]; intros b Hsep i r1 r2 H1 H2.
  - destruct i; discriminate H1.
  - destruct Hsep as (_ & _ & _ & _ & Htl).
    destruct i as [|i].
    + simpl in H1, H2. injection H1 as <-.
      destruct tl as [|[s' e'] tl']; [discriminate H2|].
      simpl in H2. injection H2 as <-. simpl in *. lia.
    + simpl in H1, H2. exact (IH e Htl i r1 r2 H1 H2).
Qed.

Lemma separated_lengths min_length merge_distance (rs : list region) :
  forall b, separated min_length merge_distance b rs ->
  forall r, In r rs -> fst r <= snd r /\ min_length <= region_length r.
Proof.
  induction rs as [|[s e] tl IH]; intros b Hsep r Hin; [destruct Hin|].
  destruct Hsep as (_ & _ & Hse & Hlen & Htl).
  destruct Hin as [<-|Hin].
  - unfold region_length. simpl. lia.
  - exact (IH e Htl r Hin).
Qed.

(** C2 (amended): consecutive returned regions satisfy end < start and
    start - end - 1 >= merge_distance (the code closes a region when
    start - end > merge_distance), and every returned region has
    length end - start + 1 >= min_length. *)
Theorem call_regions_ordered_and_separated
    (scores : list float) (threshold : float) (min_length merge_distance : Z) :
  let out := call_regions scores threshold min_length merge_distance in
  (forall i r1 r2,
      nth_error out i = Some r1 -> nth_error out (S i) = Some r2 ->
      snd r1 < fst r2 /\ fst r2 - snd r1 - 1 >= merge_distance)
  /\ (forall r, In r out -> snd r - fst r + 1 >= min_length).
Proof.
  intros out. destruct (call_regions_separated scores threshold min_length merge_distance)
    as [b Hsep]. fold out in Hsep. split.
  - intros i r1 r2 H1 H2.
    destruct (separated_pairs _ _ _ _ Hsep i r1 r2 H1 H2). lia.
  - intros r Hin.
    destruct (separated_lengths _ _ _ _ Hsep r Hin) as [_ Hlen].
    unfold region_length in Hlen. lia.
Qed.

Lemma call_regions_ordered_and_separated_witness :
  let out := call_regions example_scores 0.5%float 1 2 in
  (nth_error out 0 = Some (1, 2) /\ nth_error out 1 = Some (5, 5))
  /\ (snd (1, 2) < fst (5, 5) /\ fst (5, 5) - snd (1, 2) - 1 >= 2)
  /\ snd (5, 5) - fst (5, 5) + 1 >= 1.
Proof.
  intros out.
  assert (H0 : nth_error out 0 = Some (1, 2)) by (vm_compute; reflexivity).
  assert (H1 : nth_error out 1 = Some (5, 5)) by (vm_compute; reflexivity).
  destruct (call_regions_ordered_and_separated example_scores 0.5%float 1 2)
    as [Hpairs Hlen].
  split; [split; assumption|]. split.
  - exact (Hpairs 0%nat (1, 2) (5, 5) H0 H1).
  - apply Hlen. apply (nth_error_In _ 1%nat). exact H1.
Defined.

(** C2 as stated fails: on the worked example's scores with merge_distance 2
    the two returned regions have start - end - 1 = 2, which is not > 2. *)
Lemma call_regions_gap_can_equal_merge_distance :
  let out := call_regions example_scores 0.5%float 1 2 in
  ~ (forall i r1 r2,
        nth_error out i = Some r1 -> nth_error out (S i) = Some r2 ->
        snd r1 < fst r2 /\ fst r2 - snd r1 - 1 > 2).
Proof.
  intros out Hall.
  assert (E : out = [(1, 2); (5, 5)]) by (vm_compute; reflexivity).
  destruct (Hall 0%nat (1, 2) (5, 5)) as [_ Hgap].
  - rewrite E. reflexivity.
  - rewrite E. reflexivity.
  - simpl in Hgap. lia.
Qed.

(* ------------------------------------------------------------------ *)
(** ** call_regions: the merge boundary *)
(* ------------------------------------------------------------------ *)

Lemma call_regions_two_runs scores threshold min_length merge_distance s1 e1 s2 e2 :
  raw_runs scores threshold = [(s1, e1); (s2, e2)] ->
  call_regions scores threshold min_length merge_distance
  = filter (long_enough min_length)
      (if s2 - e1 - 1 <? merge_distance then [(s1, e2)] else [(s1, e1); (s2, e2)]).
Proof.
  intros E. rewrite call_regions_sweep, E, sweep_filter. simpl merge_only.
  destruct (Z.leb_spec (s2 - e1) merge_distance), (Z.ltb_spec (s2 - e1 - 1) merge_distance);
    try lia; reflexivity.
Qed.

(** C1 (amended): a run is merged into the running region exactly when
    start - end <= merge_distance, that is when the number of unselected
    indices between them, start - end - 1, is < merge_distance; a gap equal to
    merge_distance closes the region.  For the scores
    [0, 0.6, 0.7, 0, 0, 0.55, 0] with threshold 0.5 and min_length 1,
    merge_distance 2 gives [(1,2), (5,5)] and merge_distance 3 gives [(1,5)]. *)
Theorem call_regions_merge_boundary :
  (forall min_length merge_distance merged cur_s cur_e s e rest,
      merge_loop min_length merge_distance merged cur_s cur_e ((s, e) :: rest)
      = if s - cur_e - 1 <? merge_distance
        then merge_loop min_length merge_distance merged cur_s e rest
        else merge_loop min_length merge_distance
               (close_region min_length merged cur_s cur_e) s e rest)
  /\ (forall scores threshold min_length merge_distance s1 e1 s2 e2,
      raw_runs scores threshold = [(s1, e1); (s2, e2)] ->
      call_regions scores threshold min_length merge_distance
      = filter (long_enough min_length)
          (if s2 - e1 - 1 <? merge_distance
           then [(s1, e2)] else [(s1, e1); (s2, e2)]))
  /\ raw_runs example_scores 0.5%float = [(1, 2); (5, 5)]
  /\ call_regions example_scores 0.5%float 1 2 = [(1, 2); (5, 5)]
  /\ call_regions example_scores 0.5%float 1 3 = [(1, 5)].
Proof.
  split; [|split; [|split; [|split]]].
  - intros min_length merge_distance merged cur_s cur_e s e rest. simpl.
    destruct (Z.leb_spec (s - cur_e) merge_distance),
             (Z.ltb_spec (s - cur_e - 1) merge_distance); try lia; reflexivity.
  - intros scores threshold min_length merge_distance s1 e1 s2 e2 E.
    apply call_regions_two_runs. exact E.
  - vm_compute. reflexivity.
  - vm_compute. reflexivity.
  - vm_compute. reflexivity.
Qed.

(** C1 as stated fails: with merge_distance 2 the runs (1,2) and (5,5), whose
    gap is 5 - 2 - 1 = 2, are not merged, and the result is not [(1,5)]. *)
Lemma call_regions_worked_example_not_merged :
  raw_runs example_scores 0.5%float = [(1, 2); (5, 5)]
  /\ 5 - 2 - 1 <= 2
  /\ call_regions example_scores 0.5%float 1 2 <> [(1, 5)].
Proof.
  split; [vm_compute; reflexivity|]. split; [lia|].
  vm_compute. discriminate.
Qed.

(* ------------------------------------------------------------------ *)
(** ** call_regions: the length filter comes after merging *)
(* ------------------------------------------------------------------ *)

Lemma call_regions_filter_merged scores threshold min_length merge_distance :
  call_regions scores threshold min_length merge_distance
  = filter (long_enough min_length) (merged_regions scores threshold merge_distance).
Proof.
  rewrite call_regions_sweep. unfold merged_regions.
  destruct (raw_runs scores threshold) as [|[s e] rs]; [reflexivity|].
  apply sweep_filter.
Qed.

(** C5: the result is the list of closed (merged) regions filtered by length;
    the raw runs are never filtered.  A closed region of length >= min_length
    is returned although the runs merged into it are shorter, and a closed
    region shorter than min_length (an isolated short run) is dropped. *)
Theorem call_regions_filters_after_merging :
  (forall scores threshold min_length merge_distance,
      call_regions scores threshold min_length merge_distance
      = filter (long_enough min_length)
          (merged_regions scores threshold merge_distance))
  /\ (forall scores threshold min_length merge_distance r,
      In r (merged_regions scores threshold merge_distance) ->
      (region_length r >= min_length ->
       In r (call_regions scores threshold min_length merge_distance))
      /\ (region_length r < min_length ->
          ~ In r (call_regions scores threshold min_length merge_distance)))
  /\ (raw_runs [0; 0.6; 0; 0.6; 0]%float 0.5%float = [(1, 1); (3, 3)]
      /\ call_regions [0; 0.6; 0; 0.6; 0]%float 0.5%float 3 2 = [(1, 3)])
  /\ (raw_runs [0; 0.6; 0; 0; 0; 0.6; 0.7]%float 0.5%float = [(1, 1); (5, 6)]
      /\ call_regions [0; 0.6; 0; 0; 0; 0.6; 0.7]%float 0.5%float 2 2 = [(5, 6)]).
Proof.
  split; [|split; [|split]].
  - intros scores threshold min_length merge_distance.
    apply call_regions_filter_merged.
  - intros scores threshold min_length merge_distance r Hin.
    rewrite call_regions_filter_merged. split.
    + intros Hlen. apply filter_In. split; [exact Hin|].
      unfold long_enough. apply Z.geb_le. lia.
    + intros Hlen Hin'. apply filter_In in Hin' as [_ Hl].
      unfold long_enough in Hl. apply Z.geb_le in Hl. lia.
  - split; vm_compute; reflexivity.
  - split; vm_compute; reflexivity.
Qed.

(* ------------------------------------------------------------------ *)
(** ** call_regions: running it again on its own result *)
(* ------------------------------------------------------------------ *)

Lemma zrange_S (s : Z) (n : nat) : zrange s (S n) = s :: zrange (s + 1) n.
Proof.
  unfold zrange. simpl. rewrite Z.add_0_r. f_equal.
  rewrite <- seq_shift, map_map. apply map_ext. intros k. lia.
Qed.

Lemma runs_zrange (n : nat) :
  forall start prev rest,
    runs start prev (zrange (prev + 1) n ++ rest)
    = runs start (prev + Z.of_nat n) rest.
Proof.
  induction n as [|n IH]; intros start prev rest.
  - simpl. rewrite Z.add_0_r. reflexivity.
  - rewrite zrange_S. simpl app. simpl runs. rewrite Z.eqb_refl, IH.
    f_equal. lia.
Qed.

Lemma region_indices_cons (s e : Z) (tl : list region) :
  s <= e ->
  region_indices ((s, e) :: tl)
  = s :: zrange (s + 1) (Z.to_nat (e - s)) ++ region_indices tl.
Proof.
  intros Hse. unfold region_indices. simpl flat_map. unfold region_length. simpl fst. simpl snd.
  replace (Z.to_nat (e - s + 1)) with (S (Z.to_nat (e - s))) by lia.
  rewrite zrange_S. reflexivity.
Qed.

Lemma separated_gapped min_length merge_distance (rs : list region) :
  forall b, separated min_length merge_distance b rs -> gapped b rs.
Proof.
  induction rs as [|[s e] tl IH]; intros b Hsep; simpl; [exact I|].
  destruct Hsep as (Hb & _ & Hse & _ & Htl). repeat split; auto.
Qed.

Lemma runs_region_indices (tl : list region) :
  forall b s e,
    gapped b ((s, e) :: tl) ->
    runs s s (zrange (s + 1) (Z.to_nat (e - s)) ++ region_indices tl)
    = (s, e) :: tl.
Proof.
  induction tl as [|[s' e'] tl IH]; intros b s e (Hb & Hse & Htl).
  - rewrite runs_zrange. simpl. f_equal. f_equal. lia.
  - rewrite runs_zrange. destruct Htl as (Hs' & Hse' & Htl).
    rewrite region_indices_cons by exact Hse'. simpl runs.
    destruct (Z.eqb_spec s' (s + Z.of_nat (Z.to_nat (e - s)) + 1)) as [E|NE]; [lia|].
    rewrite (IH e s' e') by (simpl; auto).
    f_equal. f_equal. lia.
Qed.

Lemma sweep_fixed min_length merge_distance (tl : list region) :
  forall b s e,
    separated min_length merge_distance b ((s, e) :: tl) ->
    sweep min_length merge_distance s e tl = (s, e) :: tl.
Proof.
  induction tl as [|[s' e'] tl IH]; intros b s e (Hb & Hmd & Hse & Hlen & Htl); simpl.
  - unfold close_region. destruct (Z.geb_spec (e - s + 1) min_length); [reflexivity|lia].
  - pose proof Htl as (Hb' & Hmd' & _).
    destruct (Z.leb_spec (s' - e) merge_distance); [lia|].
    rewrite (IH e s' e' Htl).
    unfold close_region. destruct (Z.geb_spec (e - s + 1) min_length); [reflexivity|lia].
Qed.

Lemma separated_fixed min_length merge_distance (out : list region) (b : Z) :
  separated min_length merge_distance b out ->
  call_regions_from (region_indices out) min_length merge_distance = out
  /\ match out with
     | [] => []
     | (s, e) :: tl => merge_loop min_length merge_distance [] s e tl
     end = out.
Proof.
  intros Hsep. destruct out as [|[s e] tl]; [split; reflexivity|].
  assert (Hsweep := sweep_fixed _ _ _ _ _ _ Hsep).
  split.
  - pose proof (separated_gapped _ _ _ _ Hsep) as Hg.
    pose proof Hg as (_ & Hse & _).
    rewrite region_indices_cons by exact Hse.
    unfold call_regions_from. rewrite compress_loop_runs. simpl app.
    rewrite (runs_region_indices tl b s e Hg).
    rewrite merge_loop_sweep. exact Hsweep.
  - rewrite merge_loop_sweep. exact Hsweep.
Qed.

(** C6: the result of call_regions is a fixed point of its own compress,
    merge and filter stages: selecting exactly the indices its regions cover
    and running the stages again returns the same list, and so does running
    the merge and filter loop on the regions themselves. *)
Theorem call_regions_idempotent
    (scores : list float) (threshold : float) (min_length merge_distance : Z) :
  let out := call_regions scores threshold min_length merge_distance in
  call_regions_from (region_indices out) min_length merge_distance = out
  /\ (forall scores' threshold',
        where_abs_gt 0 scores' threshold' = region_indices out ->
        call_regions scores' threshold' min_length merge_distance = out)
  /\ match out with
     | [] => []
     | (s, e) :: tl => merge_loop min_length merge_distance [] s e tl
     end = out.
Proof.
  intros out.
  destruct (call_regions_separated scores threshold min_length merge_distance)
    as [b Hsep].
  destruct (separated_fixed _ _ _ _ Hsep) as [Hidx Hloop].
  split; [exact Hidx|]. split; [|exact Hloop].
  intros scores' threshold' E. unfold call_regions. rewrite E. exact Hidx.
Qed.

Lemma call_regions_idempotent_witness :
  let out := call_regions example_scores 0.5%float 1 2 in
  out = [(1, 2); (5, 5)]
  /\ region_indices out = [1; 2; 5]
  /\ call_regions_from (region_indices out) 1 2 = out
  /\ (where_abs_gt 0 [0; 1; 1; 0; 0; 1; 0]%float 0.5%float = region_indices out
      /\ call_regions [0; 1; 1; 0; 0; 1; 0]%float 0.5%float 1 2 = out).
Proof.
  intros out.
  destruct (call_regions_idempotent example_scores 0.5%float 1 2)
    as (Hidx & Hscores & _).
  assert (Hsel : where_abs_gt 0 [0; 1; 1; 0; 0; 1; 0]%float 0.5%float
                 = region_indices out) by (vm_compute; reflexivity).
  split; [vm_compute; reflexivity|].
  split; [vm_compute; reflexivity|].
  split; [exact Hidx|].
  split; [exact Hsel|].
  exact (Hscores _ _ Hsel).
Defined.

(* ------------------------------------------------------------------ *)
(** ** Slice assignment *)
(* ------------------------------------------------------------------ *)

Section SliceAssign.
Context {A : Type}.

Lemma nth_error_splice (l mid : list A) (a b i : nat) :
  (a <= b)%nat -> (b <= length l)%nat -> length mid = (b - a)%nat ->
  nth_error (firstn a l ++ mid ++ skipn b l) i
  = if (i <? a)%nat then nth_error l i
    else if (i <? b)%nat then nth_error mid (i - a)
    else nth_error l i.
Proof.
  intros Hab Hb Hmid.
  assert (Hfa : length (firstn a l) = a) by (rewrite length_firstn; lia).
  destruct (Nat.ltb_spec i a) as [Hia|Hia].
  - rewrite nth_error_app1 by lia. rewrite nth_error_firstn.
    destruct (Nat.ltb_spec i a); [reflexivity|lia].
  - rewrite nth_error_app2 by lia. rewrite Hfa.
    destruct (Nat.ltb_spec i b) as [Hib|Hib].
    + rewrite nth_error_app1 by lia. reflexivity.
    + rewrite nth_error_app2 by lia. rewrite nth_error_skipn. f_equal. lia.
Qed.

Lemma splice_length (l mid : list A) (a b : nat) :
  (a <= b)%nat -> (b <= length l)%nat -> length mid = (b - a)%nat ->
  length (firstn a l ++ mid ++ skipn b l) = length l.
Proof.
  intros Hab Hb Hmid. rewrite !length_app, length_firstn, length_skipn. lia.
Qed.



Lemma fill_slice_spec (f : A -> A) (l : list A) (a b : Z) :
  0 <= a -> a <= b -> b <= Py.len l ->
  Py.len (Py.fill_slice f l a b) = Py.len l /\
  forall i, Py.get (Py.fill_slice f l a b) i
            = if (a <=? i) && (i <? b) then option_map f (Py.get l i)
              else Py.get l i.
Proof.
  intros Ha Hab Hb. unfold Py.fill_slice.
  rewrite !norm_index_in_range by lia.
  unfold Py.len in *.
  replace (Z.to_nat a + Z.to_nat (b - a))%nat with (Z.to_nat b) by lia.
  assert (Hmid : length (map f (firstn (Z.to_nat (b - a)) (skipn (Z.to_nat a) l)))
                 = (Z.to_nat b - Z.to_nat a)%nat)
    by (rewrite length_map, length_firstn, length_skipn; lia).
  split.
  - rewrite splice_length by lia. reflexivity.
  - intros i. unfold Py.get. destruct (Z.ltb_spec i 0) as [Hneg|Hpos].
    + destruct (Z.leb_spec a i); [lia|]. reflexivity.
    + rewrite nth_error_splice by lia.
      destruct (Nat.ltb_spec (Z.to_nat i) (Z.to_nat a)), (Z.leb_spec a i); try lia;
        simpl; [reflexivity|].
      destruct (Nat.ltb_spec (Z.to_nat i) (Z.to_nat b)), (Z.ltb_spec i b); try lia;
        simpl; [|reflexivity].
      rewrite nth_error_map, nth_error_firstn.
      destruct (Nat.ltb_spec (Z.to_nat i - Z.to_nat a) (Z.to_nat (b - a))); [|lia].
      rewrite nth_error_skipn. do 2 f_equal. lia.
Qed.
End SliceAssign.

Section SliceFrame.
Context {A : Type}.

Lemma norm_index_bounds (n i : Z) : 0 <= n -> 0 <= Py.norm_index n i <= n.
Proof.
  intros Hn. unfold Py.norm_index. destruct (Z.ltb_spec i 0); lia.
Qed.

Lemma norm_index_nonneg (n i : Z) : 0 <= i -> Py.norm_index n i = Z.min i n.
Proof.
  intros Hi. unfold Py.norm_index. destruct (Z.ltb_spec i 0); lia.
Qed.

(** Rows before the start of the written span, and indices past the end of
    the array, are as before. *)
Lemma splice_frame (l mid : list A) (lo hi : Z) (i : Z) :
  0 <= lo <= Py.len l -> 0 <= hi <= Py.len l ->
  length mid = Z.to_nat (hi - lo) ->
  0 <= i -> i < lo \/ Py.len l <= i ->
  nth_error (firstn (Z.to_nat lo) l ++ mid
               ++ skipn (Z.to_nat lo + Z.to_nat (hi - lo)) l) (Z.to_nat i)
  = nth_error l (Z.to_nat i).
Proof.
  intros Hlo Hhi Hmid Hi Hout. unfold Py.len in *.
  rewrite nth_error_splice by lia.
  destruct (Nat.ltb_spec (Z.to_nat i) (Z.to_nat lo)); [reflexivity|].
  destruct (Nat.ltb_spec (Z.to_nat i) (Z.to_nat lo + Z.to_nat (hi - lo))); [lia|].
  reflexivity.
Qed.

Lemma set_slice_frame (l src l' : list A) (a b a0 : Z) :
  Py.set_slice l a b src = Some l' -> 0 <= a0 <= a ->
  forall i, 0 <= i < a0 -> Py.get l' i = Py.get l i.
Proof.
  intros E Ha i Hi. unfold Py.set_slice in E.
  pose proof (norm_index_bounds (Py.len l) a ltac:(unfold Py.len; lia)) as Hlo.
  pose proof (norm_index_bounds (Py.len l) b ltac:(unfold Py.len; lia)) as Hhi.
  assert (Hout : i < Py.norm_index (Py.len l) a \/ Py.len l <= i)
    by (rewrite norm_index_nonneg by lia; lia).
  rewrite !get_nat by lia.
  destruct (Nat.eqb_spec (length src) (Z.to_nat (Py.norm_index (Py.len l) b
                                                - Py.norm_index (Py.len l) a)))
    as [Hlen|Hlen].
  - injection E as <-. apply splice_frame; auto; lia.
  - destruct src as [|x [|y src]]; try discriminate E.
    injection E as <-. apply splice_frame; auto; try lia.
    apply repeat_length.
Qed.

Lemma fill_slice_frame (f : A -> A) (l : list A) (a b a0 : Z) :
  0 <= a0 <= a ->
  forall i, 0 <= i < a0 -> Py.get (Py.fill_slice f l a b) i = Py.get l i.
Proof.
  intros Ha i Hi. unfold Py.fill_slice.
  pose proof (norm_index_bounds (Py.len l) a ltac:(unfold Py.len; lia)) as Hlo.
  pose proof (norm_index_bounds (Py.len l) b ltac:(unfold Py.len; lia)) as Hhi.
  assert (Hout : i < Py.norm_index (Py.len l) a \/ Py.len l <= i)
    by (rewrite norm_index_nonneg by lia; lia).
  rewrite !get_nat by lia.
  apply splice_frame; auto; try lia.
  rewrite length_map, length_firstn, length_skipn. unfold Py.len in *. lia.
Qed.
End SliceFrame.

(* ------------------------------------------------------------------ *)
(** ** align_reference_for_indel *)
(* ------------------------------------------------------------------ *)

Lemma nan_row_repeat (r : list float) : nan_row r = repeat PrimFloat.nan (length r).
Proof.
  unfold nan_row. induction r as [|x r IH]; simpl; [reflexivity|]. rewrite IH. reflexivity.
Qed.

Lemma get_row_of_shape (m : matrix float) (n : Z) (t : nat) (i : Z) :
  has_shape m n t -> 0 <= i < n ->
  exists r, Py.get m i = Some r /\ length r = t.
Proof.
  intros [Hn Hw] Hi. rewrite get_nat by lia. unfold Py.len in Hn.
  destruct (nth_error m (Z.to_nat i)) as [r|] eqn:E.
  - exists r. split; [reflexivity|].
    rewrite Forall_forall in Hw. apply Hw. eapply nth_error_In. exact E.
  - apply nth_error_None in E. lia.
Qed.




(** C9 (amended): the alternate matrix is left as it was for every input, and
    the reference rows strictly before the mutation offset keep their values
    whenever a deletion ends inside the interval
    (offset + length_alter <= interval width); insertions and substitutions
    never touch them. *)
Theorem align_reference_for_indel_frame
    (variant : Variant) (interval : Interval) (vout vout' : VariantOutput)
    (length_alter : Z) :
  align_reference_for_indel variant interval vout length_alter = Some vout' ->
  alternate vout' = alternate vout
  /\ (0 <= mutation_offset variant interval ->
      (0 < length_alter ->
       mutation_offset variant interval + length_alter <= interval_width interval) ->
      forall i, 0 <= i < mutation_offset variant interval ->
                Py.get (reference vout') i = Py.get (reference vout) i).
Proof.
  unfold align_reference_for_indel.
  fold (mutation_offset variant interval) (interval_width interval).
  set (off := mutation_offset variant interval).
  set (n := interval_width interval).
  intros E.
  destruct (Z.gtb_spec length_alter 0) as [Hdel|Hnodel].
  - destruct (Py.set_slice (reference vout) off (n - length_alter) _) as [v1|] eqn:E1;
      [|discriminate E].
    injection E as <-. simpl. split; [reflexivity|].
    intros Hoff Hfit i Hi.
    rewrite (fill_slice_frame nan_row v1 (n - length_alter) n off) by lia.
    apply (set_slice_frame _ _ _ _ _ off E1); lia.
  - destruct (Z.ltb_spec length_alter 0) as [Hins|Hsub].
    + destruct (Py.set_slice (reference vout) (off - length_alter) n _) as [v1|] eqn:E1;
        [|discriminate E].
      injection E as <-. simpl. split; [reflexivity|].
      intros Hoff Hfit i Hi.
      rewrite (fill_slice_frame nan_row v1 off (off - length_alter) off) by lia.
      apply (set_slice_frame _ _ _ _ _ off E1); lia.
    + injection E as <-. split; [reflexivity|]. intros; reflexivity.
Qed.

Lemma align_reference_for_indel_frame_witness :
  exists vout',
    align_reference_for_indel deletion_2_at_3 ten_wide ten_out
      (length_alter_of deletion_2_at_3) = Some vout'
    /\ alternate vout' = alternate ten_out
    /\ Py.get (reference vout') 2 = Py.get (reference ten_out) 2.
Proof.
  eexists. split; [vm_compute; reflexivity|].
  match goal with
  | |- alternate ?v = _ /\ _ =>
      assert (E : align_reference_for_indel deletion_2_at_3 ten_wide ten_out
                    (length_alter_of deletion_2_at_3) = Some v)
        by (vm_compute; reflexivity);
      destruct (align_reference_for_indel_frame _ _ _ _ _ E) as [Halt Href]
  end.
  split; [exact Halt|].
  apply Href; vm_compute; try discriminate. split; [discriminate|reflexivity].
Defined.

(** C9 as stated fails for a deletion that runs past the end of the interval:
    with offset 8, length_alter 5 and 10 rows, rows 5, 6 and 7 lie before the
    offset and become not-a-number. *)
Lemma align_reference_for_indel_overwrites_before_offset :
  exists vout',
    length_alter_of deletion_5_at_8 = 5
    /\ align_reference_for_indel deletion_5_at_8 ten_wide ten_out
         (length_alter_of deletion_5_at_8) = Some vout'
    /\ alternate vout' = alternate ten_out
    /\ 0 <= 5 < mutation_offset deletion_5_at_8 ten_wide
    /\ Py.get (reference ten_out) 5 = Some [5]%float
    /\ Py.get (reference vout') 5 = Some [PrimFloat.nan]
    /\ Py.get (reference vout') 5 <> Py.get (reference ten_out) 5.
Proof.
  eexists. split; [reflexivity|].
  split; [vm_compute; reflexivity|].
  split; [reflexivity|].
  split; [vm_compute; split; [discriminate|reflexivity]|].
  split; [reflexivity|]. split; [reflexivity|].
  intros E.
  apply (f_equal (fun o => match o with
                           | Some [x] => is_nan x
                           | _ => false
                           end)) in E.
  vm_compute in E. discriminate E.
Qed.

(* ------------------------------------------------------------------ *)
(** ** main: rows of a track without regions *)
(* ------------------------------------------------------------------ *)

Lemma fold_left_append_rows {A B} (f : B -> list A) (l : list B) :
  forall acc, fold_left (fun rows x => rows ++ f x) l acc = acc ++ flat_map f l.
Proof.
  induction l as [|x l IH]; intros acc; simpl.
  - rewrite app_nil_r. reflexivity.
  - rewrite IH, <- app_assoc. reflexivity.
Qed.

Lemma seq_split_at (n i : nat) :
  (i < n)%nat -> seq 0 n = seq 0 i ++ i :: seq (S i) (n - S i).
Proof.
  intros Hi. replace n with (i + S (n - S i))%nat at 1 by lia.
  rewrite seq_app. reflexivity.
Qed.

Section RowFacts.
Variables nanmean nanmax nanmin : list float -> float.
Variable args : Args.
Variable variant : Variant.
Variable the_ontology : string.
Variable track_names : list string.
Variables start_idx center_idx : Z.

(** C10: a track for which call_regions returns no region contributes exactly
    one row, at its place among the rows of the (variant, ontology) unit: not
    significant, region count 0, region index -1, undefined bounds, the
    not-a-number-aware mean, max and min of the whole score array, and
    direction 'none'. *)
Theorem track_without_regions_emits_one_row
    (win_scores : matrix float) (n_tracks : nat) (results_rows : list ResultRow)
    (ti : nat) :
  (ti < n_tracks)%nat ->
  call_regions (column PrimFloat.nan win_scores ti)
    (threshold args) (min_length args) (merge_distance args) = [] ->
  let scores := column PrimFloat.nan win_scores ti in
  let row :=
    {| chrom := chromosome variant;
       pos := position variant;
       ref := reference_bases variant;
       alt := alternate_bases variant;
       ontology := the_ontology;
       track_name := track_name_of track_names ti;
       is_significant := false;
       n_regions := 0;
       region_index := -1;
       rel_start_bp := bp_nan;
       rel_end_bp := bp_nan;
       abs_start_bp := bp_nan;
       abs_end_bp := bp_nan;
       mean_score := nanmean scores;
       max_score := nanmax scores;
       min_score := nanmin scores;
       direction := "none";
       plot_file := None |} in
  track_rows nanmean nanmax nanmin args variant the_ontology track_names
    start_idx center_idx win_scores ti = [row]
  /\ scan_tracks nanmean nanmax nanmin args variant the_ontology track_names
       start_idx center_idx win_scores n_tracks results_rows
     = results_rows
         ++ flat_map (track_rows nanmean nanmax nanmin args variant the_ontology
                        track_names start_idx center_idx win_scores) (seq 0 ti)
         ++ [row]
         ++ flat_map (track_rows nanmean nanmax nanmin args variant the_ontology
                        track_names start_idx center_idx win_scores)
              (seq (S ti) (n_tracks - S ti)).
Proof.
  intros Hti Hnone scores row.
  assert (Hrow : track_rows nanmean nanmax nanmin args variant the_ontology
                   track_names start_idx center_idx win_scores ti = [row]).
  { unfold track_rows. cbv zeta. rewrite Hnone. reflexivity. }
  split; [exact Hrow|].
  unfold scan_tracks. rewrite fold_left_append_rows.
  rewrite (seq_split_at n_tracks ti Hti), flat_map_app. simpl flat_map.
  rewrite Hrow. reflexivity.
Qed.
End RowFacts.

Lemma track_without_regions_emits_one_row_witness :
  let rows := scan_tracks seq_nanmean seq_nanmax seq_nanmin example_args
                (variant_at 3 "A" "C") "UBERON:0000955" ["RNA: +"%string] (-3) 0
                example_win_scores 2 [] in
  ((0 < 2)%nat
   /\ call_regions (column PrimFloat.nan example_win_scores 0)
        (threshold example_args) (min_length example_args)
        (merge_distance example_args) = [])
  /\ map is_significant rows = [false; true]
  /\ map track_name rows = ["RNA: +"; "track_1"]%string
  /\ map region_index rows = [-1; 0]
  /\ map direction rows = ["none"; "up"]%string.
Proof.
  intros rows.
  assert (Hti : (0 < 2)%nat) by lia.
  assert (Hnone : call_regions (column PrimFloat.nan example_win_scores 0)
                    (threshold example_args) (min_length example_args)
                    (merge_distance example_args) = [])
    by (vm_compute; reflexivity).
  split; [split; assumption|].
  destruct (track_without_regions_emits_one_row seq_nanmean seq_nanmax seq_nanmin
              example_args (variant_at 3 "A" "C") "UBERON:0000955" ["RNA: +"%string] (-3) 0
              example_win_scores 2 [] 0 Hti Hnone) as [_ E].
  fold rows in E. rewrite E.
  split; [vm_compute; reflexivity|].
  split; [vm_compute; reflexivity|].
  split; vm_compute; reflexivity.
Defined.

(* ------------------------------------------------------------------ *)
(** ** call_regions: how the parameters act *)
(* ------------------------------------------------------------------ *)

Lemma filter_filter_implied {A} (f g : A -> bool) (l : list A) :
  (forall x, f x = true -> g x = true) ->
  filter f (filter g l) = filter f l.
Proof.
  intros Himp. induction l as [|x l IH]; simpl; [reflexivity|].
  destruct (g x) eqn:Eg; simpl.
  - rewrite IH. reflexivity.
  - destruct (f x) eqn:Ef; [|exact IH].
    rewrite (Himp x Ef) in Eg. discriminate Eg.
Qed.

(** X1: raising min_length only removes regions: the result for the larger
    value is the result for the smaller one without the regions that are too
    short; the bounds of those that remain do not move. *)
Theorem call_regions_min_length_filters
    (scores : list float) (threshold : float) (m1 m2 merge_distance : Z) :
  m1 <= m2 ->
  call_regions scores threshold m2 merge_distance
  = filter (long_enough m2) (call_regions scores threshold m1 merge_distance).
Proof.
  intros Hm. rewrite !call_regions_filter_merged.
  symmetry. apply filter_filter_implied.
  intros r. unfold long_enough. rewrite !Z.geb_le. lia.
Qed.

Lemma call_regions_min_length_filters_witness :
  1 <= 2
  /\ call_regions example_scores 0.5%float 1 2 = [(1, 2); (5, 5)]
  /\ call_regions example_scores 0.5%float 2 2 = [(1, 2)].
Proof.
  assert (Hm : 1 <= 2) by lia.
  split; [exact Hm|]. split; [vm_compute; reflexivity|].
  rewrite (call_regions_min_length_filters example_scores 0.5%float 1 2 2 Hm).
  vm_compute. reflexivity.
Defined.

Lemma merge_only_no_merge merge_distance (rest : list region) :
  forall cur_s cur_e,
    merge_distance <= 1 -> gapped cur_e rest ->
    merge_only merge_distance cur_s cur_e rest = (cur_s, cur_e) :: rest.
Proof.
  induction rest as [|[s e] rest IH]; intros cur_s cur_e Hmd Hg; simpl.
  - reflexivity.
  - destruct Hg as (Hs & Hse & Hg).
    destruct (Z.leb_spec (s - cur_e) merge_distance); [lia|].
    rewrite (IH s e Hmd Hg). reflexivity.
Qed.

(** X2: with merge_distance <= 1 nothing is ever merged: the result is the list
    of maximal runs of selected indices that are long enough.  Two runs are at
    least one unselected index apart, that is start - end >= 2. *)
Theorem call_regions_small_merge_distance
    (scores : list float) (threshold : float) (min_length merge_distance : Z) :
  merge_distance <= 1 ->
  call_regions scores threshold min_length merge_distance
  = filter (long_enough min_length) (raw_runs scores threshold).
Proof.
  intros Hmd. rewrite call_regions_filter_merged. unfold merged_regions.
  pose proof (raw_runs_gapped scores threshold) as G.
  destruct (raw_runs scores threshold) as [|[s e] rs]; [reflexivity|].
  destruct G as [_ G]. rewrite (merge_only_no_merge _ _ s e Hmd G). reflexivity.
Qed.

Lemma call_regions_small_merge_distance_witness :
  1 <= 1
  /\ raw_runs [0; 0.6; 0; 0.6; 0.7]%float 0.5%float = [(1, 1); (3, 4)]
  /\ call_regions [0; 0.6; 0; 0.6; 0.7]%float 0.5%float 1 1 = [(1, 1); (3, 4)].
Proof.
  assert (Hmd : 1 <= 1) by lia.
  split; [exact Hmd|]. split; [vm_compute; reflexivity|].
  rewrite (call_regions_small_merge_distance _ 0.5%float 1 1 Hmd).
  vm_compute. reflexivity.
Defined.

(* ------------------------------------------------------------------ *)
(** ** call_regions: regions and selected indices *)
(* ------------------------------------------------------------------ *)

Lemma where_abs_gt_sound (scores : list float) (threshold : float) :
  forall i0 i,
    In i (where_abs_gt i0 scores threshold) ->
    i0 <= i /\
    exists x, nth_error scores (Z.to_nat (i - i0)) = Some x
              /\ PrimFloat.ltb threshold (PrimFloat.abs x) = true.
Proof.
  induction scores as [|y ys IH]; intros i0 i Hin; simpl in Hin; [destruct Hin|].
  assert (Hlater : In i (where_abs_gt (i0 + 1) ys threshold) ->
                   i0 <= i /\
                   exists x, nth_error (y :: ys) (Z.to_nat (i - i0)) = Some x
                             /\ PrimFloat.ltb threshold (PrimFloat.abs x) = true).
  { intros H. destruct (IH _ _ H) as (Hle & x & Hx & Hgt).
    split; [lia|]. exists x. split; [|exact Hgt].
    replace (Z.to_nat (i - i0)) with (S (Z.to_nat (i - (i0 + 1)))) by lia.
    exact Hx. }
  destruct (PrimFloat.ltb threshold (PrimFloat.abs y)) eqn:Ey.
  - destruct Hin as [<-|Hin]; [|exact (Hlater Hin)].
    split; [lia|]. exists y. rewrite Z.sub_diag. split; [reflexivity|exact Ey].
  - exact (Hlater Hin).
Qed.

Lemma where_abs_gt_complete (scores : list float) (threshold : float) :
  forall i0 i x,
    i0 <= i -> nth_error scores (Z.to_nat (i - i0)) = Some x ->
    PrimFloat.ltb threshold (PrimFloat.abs x) = true ->
    In i (where_abs_gt i0 scores threshold).
Proof.
  induction scores as [|y ys IH]; intros i0 i x Hle Hx Hgt.
  - destruct (Z.to_nat (i - i0)); discriminate Hx.
  - simpl. destruct (Z.eq_dec i i0) as [->|Hne].
    + rewrite Z.sub_diag in Hx. simpl in Hx. injection Hx as ->.
      rewrite Hgt. left. reflexivity.
    + assert (Hin : In i (where_abs_gt (i0 + 1) ys threshold)).
      { apply (IH (i0 + 1) i x); [lia| |exact Hgt].
        replace (Z.to_nat (i - i0)) with (S (Z.to_nat (i - (i0 + 1)))) in Hx by lia.
        exact Hx. }
      destruct (PrimFloat.ltb threshold (PrimFloat.abs y)); [right|]; exact Hin.
Qed.

Lemma is_hit_where (scores : list float) (threshold : float) (i : Z) :
  is_hit scores threshold i <-> In i (where_abs_gt 0 scores threshold).
Proof.
  unfold is_hit, Py.get. split.
  - intros (x & Hx & Hgt). destruct (Z.ltb_spec i 0); [discriminate Hx|].
    apply (where_abs_gt_complete scores threshold 0 i x); [lia| |exact Hgt].
    rewrite Z.sub_0_r. exact Hx.
  - intros Hin. destruct (where_abs_gt_sound _ _ _ _ Hin) as (Hle & x & Hx & Hgt).
    exists x. destruct (Z.ltb_spec i 0); [lia|].
    rewrite Z.sub_0_r in Hx. split; assumption.
Qed.

Lemma runs_endpoints (rest : list Z) :
  forall start prev s e,
    In (s, e) (runs start prev rest) ->
    (s = start \/ In s rest) /\ (e = prev \/ In e rest).
Proof.
  induction rest as [|i rest IH]; intros start prev s e Hin; simpl in Hin.
  - destruct Hin as [E|[]]. injection E as <- <-. auto.
  - destruct (i =? prev + 1).
    + destruct (IH _ _ _ _ Hin) as [[->|Hs] [->|He]]; simpl; auto.
    + destruct Hin as [E|Hin].
      * injection E as <- <-. auto.
      * destruct (IH _ _ _ _ Hin) as [[->|Hs] [->|He]]; simpl; auto.
Qed.

Lemma sweep_endpoints min_length merge_distance (rest : list region) :
  forall cur_s cur_e s e,
    In (s, e) (sweep min_length merge_distance cur_s cur_e rest) ->
    (s = cur_s \/ exists e', In (s, e') rest)
    /\ (e = cur_e \/ exists s', In (s', e) rest).
Proof.
  induction rest as [|[s1 e1] rest IH]; intros cur_s cur_e s e Hin; simpl in Hin.
  - unfold close_region in Hin.
    destruct (cur_e - cur_s + 1 >=? min_length); [|destruct Hin].
    destruct Hin as [E|[]]. injection E as <- <-. auto.
  - destruct (s1 - cur_e <=? merge_distance).
    + destruct (IH _ _ _ _ Hin) as [Hs He]. split.
      * destruct Hs as [->|(e' & He')]; [left; reflexivity|right].
        exists e'. right. exact He'.
      * right. destruct He as [->|(s' & Hs')].
        -- exists s1. left. reflexivity.
        -- exists s'. right. exact Hs'.
    + apply in_app_or in Hin. destruct Hin as [Hin|Hin].
      * unfold close_region in Hin.
        destruct (cur_e - cur_s + 1 >=? min_length); [|destruct Hin].
        destruct Hin as [E|[]]. injection E as <- <-. auto.
      * destruct (IH _ _ _ _ Hin) as [Hs He]. split; right.
        -- destruct Hs as [->|(e' & He')].
           ++ exists e1. left. reflexivity.
           ++ exists e'. right. exact He'.
        -- destruct He as [->|(s' & Hs')].
           ++ exists s1. left. reflexivity.
           ++ exists s'. right. exact Hs'.
Qed.

Lemma raw_runs_endpoints scores threshold s e :
  In (s, e) (raw_runs scores threshold) ->
  In s (where_abs_gt 0 scores threshold) /\ In e (where_abs_gt 0 scores threshold).
Proof.
  unfold raw_runs. destruct (where_abs_gt 0 scores threshold) as [|i0 rest];
    [intros []|].
  intros Hin. destruct (runs_endpoints _ _ _ _ _ Hin) as [[->|Hs] [->|He]];
    simpl; auto.
Qed.

Lemma call_regions_endpoints scores threshold min_length merge_distance s e :
  In (s, e) (call_regions scores threshold min_length merge_distance) ->
  In s (where_abs_gt 0 scores threshold) /\ In e (where_abs_gt 0 scores threshold).
Proof.
  rewrite call_regions_sweep. intros Hin.
  destruct (raw_runs scores threshold) as [|[s0 e0] rs] eqn:E; [destruct Hin|].
  destruct (sweep_endpoints _ _ _ _ _ _ _ Hin) as [Hs He]. split.
  - destruct Hs as [->|(e' & He')].
    + apply (raw_runs_endpoints scores threshold s0 e0). rewrite E. left. reflexivity.
    + apply (raw_runs_endpoints scores threshold s e'). rewrite E. right. exact He'.
  - destruct He as [->|(s' & Hs')].
    + apply (raw_runs_endpoints scores threshold s0 e0). rewrite E. left. reflexivity.
    + apply (raw_runs_endpoints scores threshold s' e). rewrite E. right. exact Hs'.
Qed.

Lemma is_hit_in_bounds scores threshold i :
  is_hit scores threshold i -> 0 <= i < Py.len scores.
Proof.
  unfold is_hit, Py.get, Py.len. intros (x & Hx & _).
  destruct (Z.ltb_spec i 0); [discriminate Hx|].
  assert (Z.to_nat i < length scores)%nat by (apply nth_error_Some; congruence).
  lia.
Qed.

Lemma call_regions_region_bounds
    (scores : list float) (threshold : float) (min_length merge_distance : Z)
    (r : region) :
  In r (call_regions scores threshold min_length merge_distance) ->
  is_hit scores threshold (fst r) /\ is_hit scores threshold (snd r)
  /\ 0 <= fst r /\ fst r <= snd r /\ snd r < Py.len scores.
Proof.
  intros Hin. destruct r as [s e].
  destruct (call_regions_endpoints _ _ _ _ _ _ Hin) as [Hs He].
  apply is_hit_where in Hs. apply is_hit_where in He.
  destruct (call_regions_separated scores threshold min_length merge_distance)
    as [b Hsep].
  destruct (separated_lengths _ _ _ _ Hsep _ Hin) as [Hle _].
  pose proof (is_hit_in_bounds _ _ _ Hs). pose proof (is_hit_in_bounds _ _ _ He).
  simpl in *. repeat split; try assumption; lia.
Qed.

(** X3: every returned region begins and ends at a selected index, one whose
    score exceeds the threshold in absolute value (so neither end is
    not-a-number), and lies inside the score array:
    0 <= start <= end < len(scores). *)
Theorem call_regions_ends_are_hits
    (scores : list float) (threshold : float) (min_length merge_distance : Z)
    (r : region) :
  In r (call_regions scores threshold min_length merge_distance) ->
  is_hit scores threshold (fst r) /\ is_hit scores threshold (snd r)
  /\ 0 <= fst r /\ fst r <= snd r /\ snd r < Py.len scores.
Proof.
  exact (call_regions_region_bounds scores threshold min_length merge_distance r).
Qed.

Lemma call_regions_ends_are_hits_witness :
  In (5, 5) (call_regions example_scores 0.5%float 1 2)
  /\ is_hit example_scores 0.5%float 5
  /\ 5 < Py.len example_scores.
Proof.
  assert (Hin : In (5, 5) (call_regions example_scores 0.5%float 1 2))
    by (vm_compute; right; left; reflexivity).
  split; [exact Hin|].
  destruct (call_regions_ends_are_hits example_scores 0.5%float 1 2 (5, 5) Hin)
    as (Hs & _ & _ & _ & Hlen).
  split; [exact Hs|exact Hlen].
Defined.

Lemma runs_cover (rest : list Z) :
  forall start prev i,
    start <= prev -> ascending_from prev rest ->
    start <= i <= prev \/ In i rest ->
    exists s e, In (s, e) (runs start prev rest) /\ s <= i <= e.
Proof.
  induction rest as [|k rest IH]; intros start prev i Hsp Hasc Hi; simpl.
  - destruct Hi as [Hi|[]]. exists start, prev. split; [left; reflexivity|exact Hi].
  - destruct Hasc as [Hk Hasc]. destruct (Z.eqb_spec k (prev + 1)) as [E|NE].
    + apply IH; [lia|exact Hasc|].
      destruct Hi as [Hi|[->|Hi]]; [left; lia|left; lia|right; exact Hi].
    + destruct Hi as [Hi|[->|Hi]].
      * exists start, prev. split; [left; reflexivity|exact Hi].
      * destruct (IH i i i ltac:(lia) Hasc ltac:(left; lia)) as (s & e & Hin & Hr).
        exists s, e. split; [right; exact Hin|exact Hr].
      * destruct (IH k k i ltac:(lia) Hasc ltac:(right; exact Hi))
          as (s & e & Hin & Hr).
        exists s, e. split; [right; exact Hin|exact Hr].
Qed.

Lemma sweep_cover min_length merge_distance (rest : list region) :
  forall cur_s cur_e i,
    min_length <= 1 -> cur_s <= cur_e -> gapped cur_e rest ->
    cur_s <= i <= cur_e \/ (exists s e, In (s, e) rest /\ s <= i <= e) ->
    exists s e,
      In (s, e) (sweep min_length merge_distance cur_s cur_e rest) /\ s <= i <= e.
Proof.
  induction rest as [|[s1 e1] rest IH]; intros cur_s cur_e i Hml Hse Hg Hi; simpl.
  - destruct Hi as [Hi|(s & e & [] & _)].
    exists cur_s, cur_e. split; [|exact Hi].
    unfold close_region.
    destruct (Z.geb_spec (cur_e - cur_s + 1) min_length); [left; reflexivity|lia].
  - destruct Hg as (Hs1 & Hse1 & Hg).
    destruct (Z.leb_spec (s1 - cur_e) merge_distance).
    + apply IH; [exact Hml|lia|exact Hg|].
      destruct Hi as [Hi|(s & e & [E|Hin] & Hr)].
      * left. lia.
      * injection E as <- <-. left. lia.
      * right. exists s, e. split; assumption.
    + destruct Hi as [Hi|(s & e & [E|Hin] & Hr)].
      * exists cur_s, cur_e. split; [|exact Hi]. apply in_or_app. left.
        unfold close_region.
        destruct (Z.geb_spec (cur_e - cur_s + 1) min_length); [left; reflexivity|lia].
      * injection E as <- <-.
        destruct (IH s1 e1 i Hml Hse1 Hg ltac:(left; exact Hr)) as (s & e & Hin & Hr').
        exists s, e. split; [apply in_or_app; right; exact Hin|exact Hr'].
      * destruct (IH s1 e1 i Hml Hse1 Hg
                    ltac:(right; exists s, e; split; assumption))
          as (s' & e' & Hin' & Hr').
        exists s', e'. split; [apply in_or_app; right; exact Hin'|exact Hr'].
Qed.

Lemma raw_runs_cover scores threshold i :
  In i (where_abs_gt 0 scores threshold) ->
  exists s e, In (s, e) (raw_runs scores threshold) /\ s <= i <= e.
Proof.
  unfold raw_runs. intros Hin.
  pose proof (where_abs_gt_ascending scores threshold 0) as Hasc.
  destruct (where_abs_gt 0 scores threshold) as [|i0 rest]; [destruct Hin|].
  destruct Hasc as [_ Hasc].
  apply runs_cover; [lia|exact Hasc|].
  destruct Hin as [->|Hin]; [left; lia|right; exact Hin].
Qed.

(** X4: with min_length <= 1 no selected index is lost: every index whose
    score exceeds the threshold in absolute value lies inside a returned
    region, and the result is empty exactly when no score exceeds the
    threshold. *)
Theorem call_regions_covers_hits
    (scores : list float) (threshold : float) (min_length merge_distance : Z) :
  min_length <= 1 ->
  (forall i, is_hit scores threshold i ->
             exists r,
               In r (call_regions scores threshold min_length merge_distance)
               /\ fst r <= i <= snd r)
  /\ (call_regions scores threshold min_length merge_distance = []
      <-> forall i, ~ is_hit scores threshold i).
Proof.
  intros Hml.
  assert (Hcover : forall i, is_hit scores threshold i ->
             exists r,
               In r (call_regions scores threshold min_length merge_distance)
               /\ fst r <= i <= snd r).
  { intros i Hi. apply is_hit_where in Hi.
    destruct (raw_runs_cover _ _ _ Hi) as (s & e & Hin & Hr).
    rewrite call_regions_sweep.
    pose proof (raw_runs_gapped scores threshold) as G.
    destruct (raw_runs scores threshold) as [|[s0 e0] rs]; [destruct Hin|].
    destruct G as [Hse G].
    destruct (sweep_cover min_length merge_distance rs s0 e0 i Hml Hse G)
      as (s' & e' & Hin' & Hr').
    - destruct Hin as [E|Hin].
      + injection E as <- <-. left. exact Hr.
      + right. exists s, e. split; assumption.
    - exists (s', e'). split; [exact Hin'|exact Hr']. }
  split; [exact Hcover|]. split.
  - intros Hempty i Hi. destruct (Hcover i Hi) as (r & Hin & _).
    rewrite Hempty in Hin. destruct Hin.
  - intros Hnone. unfold call_regions, call_regions_from.
    destruct (where_abs_gt 0 scores threshold) as [|i0 rest] eqn:E; [reflexivity|].
    exfalso. apply (Hnone i0). apply is_hit_where. rewrite E. left. reflexivity.
Qed.

Lemma call_regions_covers_hits_witness :
  1 <= 1
  /\ is_hit example_scores 0.5%float 2
  /\ exists r, In r (call_regions example_scores 0.5%float 1 2)
               /\ fst r <= 2 <= snd r.
Proof.
  assert (Hml : 1 <= 1) by lia.
  assert (Hhit : is_hit example_scores 0.5%float 2)
    by (eexists; split; vm_compute; reflexivity).
  split; [exact Hml|]. split; [exact Hhit|].
  exact (proj1 (call_regions_covers_hits example_scores 0.5%float 1 2 Hml) 2 Hhit).
Defined.

(* ------------------------------------------------------------------ *)
(** ** compute_window_scores: shape and what a score depends on *)
(* ------------------------------------------------------------------ *)

Section ListForall.
Context {A : Type} (P : A -> Prop).

Lemma Forall_firstn_keep (n : nat) (l : list A) : Forall P l -> Forall P (firstn n l).
Proof.
  revert l. induction n as [|n IH]; intros [|x l] Hl; simpl; try constructor.
  - inversion Hl; assumption.
  - apply IH. inversion Hl; assumption.
Qed.

Lemma Forall_skipn_keep (n : nat) (l : list A) : Forall P l -> Forall P (skipn n l).
Proof.
  revert l. induction n as [|n IH]; intros [|x l] Hl; simpl; try assumption.
  apply IH. inversion Hl; assumption.
Qed.

Lemma Forall_slice (l : list A) (a b : Z) : Forall P l -> Forall P (Py.slice l a b).
Proof.
  intros Hl. unfold Py.slice. apply Forall_firstn_keep, Forall_skipn_keep, Hl.
Qed.
End ListForall.

Section ScoreShape.
Context {F : Type} `{Arith F}.

Lemma rows_zip_width (f : F -> F -> F) (t : nat) (a b : matrix F) :
  Forall (fun r => length r = t) a -> Forall (fun r => length r = t) b ->
  Forall (fun r => length r = t) (mat_zip f a b).
Proof.
  unfold mat_zip. revert b. induction a as [|ra a IH]; intros [|rb b] Ha Hb; simpl;
    try constructor.
  - rewrite zip_with_length. inversion Ha; inversion Hb; subst. lia.
  - apply IH; [inversion Ha|inversion Hb]; assumption.
Qed.

Lemma rows_map_width (f : F -> F) (t : nat) (a : matrix F) :
  Forall (fun r => length r = t) a ->
  Forall (fun r => length r = t) (mat_map f a).
Proof.
  unfold mat_map. intros Ha. apply Forall_map.
  eapply Forall_impl; [|exact Ha]. simpl. intros r Hr. rewrite length_map. exact Hr.
Qed.

Lemma cumsum_from_width (t : nat) (rows : matrix F) :
  forall acc, length acc = t -> Forall (fun r => length r = t) rows ->
              Forall (fun r => length r = t) (cumsum_from acc rows).
Proof.
  induction rows as [|r rows IH]; intros acc Hacc Hrows; simpl; constructor.
  - unfold row_add. rewrite zip_with_length. inversion Hrows; subst. lia.
  - apply IH; [|inversion Hrows; assumption].
    unfold row_add. rewrite zip_with_length. inversion Hrows; subst. lia.
Qed.

Lemma cumsum_zero_width (t : nat) (vals : matrix F) :
  Forall (fun r => length r = t) vals ->
  Forall (fun r => length r = t) (cumsum_zero t vals).
Proof.
  intros Hv. unfold cumsum_zero, cumsum. constructor.
  - apply repeat_length.
  - apply cumsum_from_width; [apply repeat_length|exact Hv].
Qed.

Lemma n_tracks_of_shape (m : matrix F) (n : Z) (t : nat) :
  has_shape m n t -> 0 < n -> n_tracks_of m = t.
Proof.
  intros [Hn Hw] Hpos. destruct m as [|r rs].
  - unfold Py.len in Hn. simpl in Hn. lia.
  - inversion Hw; subst. reflexivity.
Qed.

Lemma window_rows_count
    (alt_vals ref_vals : matrix F) (n start_idx end_idx window_size : Z) (eps : F) :
  Py.len alt_vals = n -> Py.len ref_vals = n -> 1 <= window_size ->
  Py.len (compute_window_scores alt_vals ref_vals start_idx end_idx window_size eps)
  = Z.max 0 (Z.min n end_idx - Z.max 0 start_idx - window_size + 1).
Proof.
  intros Ha Hr Hw. unfold compute_window_scores. rewrite Ha.
  replace (if start_idx <? 0 then 0 else start_idx) with (Z.max 0 start_idx)
    by (destruct (Z.ltb_spec start_idx 0); lia).
  replace (if end_idx >? n then n else end_idx) with (Z.min n end_idx)
    by (rewrite Z.gtb_ltb; destruct (Z.ltb_spec n end_idx); lia).
  set (nw := Z.min n end_idx - Z.max 0 start_idx - window_size + 1).
  destruct (Z.leb_spec nw 0) as [Hle|Hgt].
  - unfold Py.len. simpl. lia.
  - unfold Py.len, mat_zip. rewrite zip_with_length.
    pose proof (cumsum_zero_length (n_tracks_of alt_vals) alt_vals) as La.
    pose proof (cumsum_zero_length (n_tracks_of alt_vals) ref_vals) as Lr.
    rewrite !window_means_length by (unfold nw in *; lia).
    lia.
Qed.

(** X5: the result has shape (n_windows, n_tracks): one row per window, each
    with one score per track. *)
Theorem compute_window_scores_shape
    (alt_vals ref_vals : matrix F) (n : Z) (t : nat)
    (start_idx end_idx window_size : Z) (eps : F) :
  has_shape alt_vals n t -> has_shape ref_vals n t -> 1 <= window_size ->
  has_shape (compute_window_scores alt_vals ref_vals start_idx end_idx window_size eps)
    (Z.max 0 (Z.min n end_idx - Z.max 0 start_idx - window_size + 1)) t.
Proof.
  intros Ha Hr Hw. split.
  - apply window_rows_count; [apply Ha|apply Hr|exact Hw].
  - unfold compute_window_scores. cbv zeta.
    destruct (_ <=? 0) eqn:E; [constructor|].
    assert (Hpos : 0 < n).
    { apply Z.leb_gt in E. destruct Ha as [Hn _]. rewrite Hn in E.
      rewrite Z.gtb_ltb in E.
      destruct (Z.ltb_spec start_idx 0), (Z.ltb_spec n end_idx); lia. }
    rewrite (n_tracks_of_shape alt_vals n t Ha Hpos).
    apply rows_zip_width; unfold window_means; apply rows_map_width, rows_zip_width;
      apply Forall_slice, cumsum_zero_width; (apply Ha || apply Hr).
Qed.

(** X6: a window's score depends on where the window lies in the arrays, not
    on the scan bounds: two scans of the same arrays give the same score to
    the windows that start at the same sample. *)
Theorem window_score_independent_of_scan_bounds
    (alt_vals ref_vals : matrix F) (n : Z) (t c : nat)
    (start1 end1 start2 end2 window_size : Z) (eps : F) (j1 j2 : Z) :
  has_shape alt_vals n t -> has_shape ref_vals n t -> (c < t)%nat ->
  1 <= window_size ->
  0 <= j1 < Z.min n end1 - Z.max 0 start1 - window_size + 1 ->
  0 <= j2 < Z.min n end2 - Z.max 0 start2 - window_size + 1 ->
  Z.max 0 start1 + j1 = Z.max 0 start2 + j2 ->
  entry (compute_window_scores alt_vals ref_vals start1 end1 window_size eps) j1 c
  = entry (compute_window_scores alt_vals ref_vals start2 end2 window_size eps) j2 c.
Proof.
  intros Ha Hr Hc Hw Hj1 Hj2 Hsame.
  rewrite !(compute_window_scores_entry alt_vals ref_vals n t c) by assumption.
  unfold clip_start.
  replace (Z.max 0 start1 + window_size + j1)
    with (Z.max 0 start2 + window_size + j2) by lia.
  rewrite Hsame. reflexivity.
Qed.
End ScoreShape.

Lemma compute_window_scores_shape_witness :
  let alt_vals := [[1; 2]; [2; 3]; [4; 5]; [8; 9]]%float in
  let ref_vals := [[1; 1]; [1; 1]; [2; 2]; [2; 2]]%float in
  has_shape alt_vals 4 2 /\ has_shape ref_vals 4 2 /\ 1 <= 2 /\
  has_shape (compute_window_scores alt_vals ref_vals (-1) 9 2 1e-8%float) 3 2.
Proof.
  intros alt_vals ref_vals.
  assert (Ha : has_shape alt_vals 4 2) by (split; [reflexivity | repeat constructor]).
  assert (Hr : has_shape ref_vals 4 2) by (split; [reflexivity | repeat constructor]).
  assert (Hw : 1 <= 2) by lia.
  split; [exact Ha|]. split; [exact Hr|]. split; [exact Hw|].
  exact (compute_window_scores_shape alt_vals ref_vals 4 2 (-1) 9 2 1e-8%float
           Ha Hr Hw).
Defined.

Lemma window_score_independent_of_scan_bounds_witness :
  let alt_vals := [[1]; [2]; [4]; [8]; [16]; [32]]%float in
  let ref_vals := [[1]; [1]; [2]; [2]; [4]; [4]]%float in
  (has_shape alt_vals 6 1 /\ has_shape ref_vals 6 1 /\ (0 < 1)%nat /\ 1 <= 2
   /\ 0 <= 3 < Z.min 6 6 - Z.max 0 0 - 2 + 1
   /\ 0 <= 1 < Z.min 6 5 - Z.max 0 2 - 2 + 1
   /\ Z.max 0 0 + 3 = Z.max 0 2 + 1)
  /\ entry (compute_window_scores alt_vals ref_vals 0 6 2 1e-8%float) 3 0
     = entry (compute_window_scores alt_vals ref_vals 2 5 2 1e-8%float) 1 0.
Proof.
  intros alt_vals ref_vals.
  assert (Ha : has_shape alt_vals 6 1) by (split; [reflexivity | repeat constructor]).
  assert (Hr : has_shape ref_vals 6 1) by (split; [reflexivity | repeat constructor]).
  assert (Hc : (0 < 1)%nat) by lia.
  assert (Hw : 1 <= 2) by lia.
  assert (Hj1 : 0 <= 3 < Z.min 6 6 - Z.max 0 0 - 2 + 1) by (simpl; lia).
  assert (Hj2 : 0 <= 1 < Z.min 6 5 - Z.max 0 2 - 2 + 1) by (simpl; lia).
  assert (Hs : Z.max 0 0 + 3 = Z.max 0 2 + 1) by reflexivity.
  split; [tauto|].
  exact (window_score_independent_of_scan_bounds alt_vals ref_vals 6 1 0
           0 6 2 5 2 1e-8%float 3 1 Ha Hr Hc Hw Hj1 Hj2 Hs).
Defined.

Section ScoreFrame.
Context {F : Type} `{Arith F}.

Lemma matrix_ext (a b : matrix F) (n : Z) (t : nat) :
  has_shape a n t -> has_shape b n t ->
  (forall j c, 0 <= j < n -> (c < t)%nat -> entry a j c = entry b j c) ->
  a = b.
Proof.
  intros [Han Haw] [Hbn Hbw] Hentry. apply nth_error_ext. intros k.
  unfold Py.len in Han, Hbn.
  destruct (Nat.ltb_spec k (length a)) as [Hk|Hk].
  - destruct (nth_error a k) as [ra|] eqn:Ea;
      [|apply nth_error_None in Ea; lia].
    destruct (nth_error b k) as [rb|] eqn:Eb;
      [|apply nth_error_None in Eb; lia].
    f_equal. apply nth_error_ext. intros c.
    assert (Hra : length ra = t)
      by (rewrite Forall_forall in Haw; apply Haw; eapply nth_error_In; exact Ea).
    assert (Hrb : length rb = t)
      by (rewrite Forall_forall in Hbw; apply Hbw; eapply nth_error_In; exact Eb).
    destruct (Nat.ltb_spec c t) as [Hc|Hc].
    + specialize (Hentry (Z.of_nat k) c ltac:(lia) Hc).
      unfold entry in Hentry. rewrite !get_nat in Hentry by lia.
      rewrite Nat2Z.id, Ea, Eb in Hentry. exact Hentry.
    + transitivity (@None F); [|symmetry]; apply nth_error_None; lia.
  - transitivity (@None (list F)); [|symmetry]; apply nth_error_None; lia.
Qed.

Lemma prefix_sum_firstn (vals vals' : matrix F) (c : nat) (k K : Z) :
  firstn (Z.to_nat K) vals = firstn (Z.to_nat K) vals' -> k <= K ->
  prefix_sum vals c k = prefix_sum vals' c k.
Proof.
  intros Hsame Hk. unfold prefix_sum, column.
  assert (E : forall m : matrix F,
             firstn (Z.to_nat k) (map (fun r => nth c r f0) m)
             = firstn (Z.to_nat k)
                 (map (fun r => nth c r f0) (firstn (Z.to_nat K) m))).
  { intros m. rewrite <- firstn_map, firstn_firstn.
    replace (Nat.min (Z.to_nat k) (Z.to_nat K)) with (Z.to_nat k) by lia.
    reflexivity. }
  rewrite (E vals), (E vals'), Hsame. reflexivity.
Qed.

(** X7: the samples at and after the clipped scan end have no influence: two
    pairs of arrays of the same shape that agree on the rows before
    min(n_bases, end_idx) get the same window scores.  (The rows before the
    scan start do have an influence, through the cumulative sums.) *)
Theorem compute_window_scores_ignores_rows_after_end
    (alt_vals ref_vals alt_vals' ref_vals' : matrix F) (n : Z) (t : nat)
    (start_idx end_idx window_size : Z) (eps : F) :
  has_shape alt_vals n t -> has_shape ref_vals n t ->
  has_shape alt_vals' n t -> has_shape ref_vals' n t ->
  1 <= window_size ->
  firstn (Z.to_nat (Z.min n end_idx)) alt_vals
  = firstn (Z.to_nat (Z.min n end_idx)) alt_vals' ->
  firstn (Z.to_nat (Z.min n end_idx)) ref_vals
  = firstn (Z.to_nat (Z.min n end_idx)) ref_vals' ->
  compute_window_scores alt_vals ref_vals start_idx end_idx window_size eps
  = compute_window_scores alt_vals' ref_vals' start_idx end_idx window_size eps.
Proof.
  intros Ha Hr Ha' Hr' Hw Halt Href.
  apply (matrix_ext _ _
           (Z.max 0 (Z.min n end_idx - Z.max 0 start_idx - window_size + 1)) t).
  - apply compute_window_scores_shape; assumption.
  - apply compute_window_scores_shape; assumption.
  - intros j c Hj Hc.
    rewrite (compute_window_scores_entry alt_vals ref_vals n t c)
      by (try assumption; unfold n_windows_of, clip_start, clip_end; lia).
    rewrite (compute_window_scores_entry alt_vals' ref_vals' n t c)
      by (try assumption; unfold n_windows_of, clip_start, clip_end; lia).
    unfold clip_start.
    rewrite !(prefix_sum_firstn alt_vals alt_vals' c _ (Z.min n end_idx) Halt) by lia.
    rewrite !(prefix_sum_firstn ref_vals ref_vals' c _ (Z.min n end_idx) Href) by lia.
    reflexivity.
Qed.
End ScoreFrame.

Lemma compute_window_scores_ignores_rows_after_end_witness :
  let alt_vals := [[1]; [2]; [4]; [8]; [16]]%float in
  let alt_vals' := [[1]; [2]; [4]; [PrimFloat.nan]; [0]]%float in
  let ref_vals := [[1]; [1]; [2]; [2]; [4]]%float in
  (has_shape alt_vals 5 1 /\ has_shape alt_vals' 5 1 /\ has_shape ref_vals 5 1
   /\ 1 <= 2
   /\ firstn (Z.to_nat (Z.min 5 3)) alt_vals = firstn (Z.to_nat (Z.min 5 3)) alt_vals')
  /\ compute_window_scores alt_vals ref_vals 0 3 2 1e-8%float
     = compute_window_scores alt_vals' ref_vals 0 3 2 1e-8%float.
Proof.
  intros alt_vals alt_vals' ref_vals.
  assert (Ha : has_shape alt_vals 5 1) by (split; [reflexivity | repeat constructor]).
  assert (Ha' : has_shape alt_vals' 5 1) by (split; [reflexivity | repeat constructor]).
  assert (Hr : has_shape ref_vals 5 1) by (split; [reflexivity | repeat constructor]).
  assert (Hw : 1 <= 2) by lia.
  assert (Halt : firstn (Z.to_nat (Z.min 5 3)) alt_vals
                 = firstn (Z.to_nat (Z.min 5 3)) alt_vals') by reflexivity.
  split; [tauto|].
  exact (compute_window_scores_ignores_rows_after_end alt_vals ref_vals alt_vals'
           ref_vals 5 1 0 3 2 1e-8%float Ha Hr Ha' Hr Hw Halt eq_refl).
Defined.

(* ------------------------------------------------------------------ *)
(** ** align_reference_for_indel: shape and truncation at the interval end *)
(* ------------------------------------------------------------------ *)

Section SliceShape.
Context {A : Type} (P : A -> Prop).

Lemma set_slice_keeps (l src l' : list A) (a b : Z) :
  Py.set_slice l a b src = Some l' ->
  Py.len l' = Py.len l /\ (Forall P l -> Forall P src -> Forall P l').
Proof.
  unfold Py.set_slice. intros E.
  pose proof (norm_index_bounds (Py.len l) a ltac:(unfold Py.len; lia)) as Hlo.
  pose proof (norm_index_bounds (Py.len l) b ltac:(unfold Py.len; lia)) as Hhi.
  set (lo := Py.norm_index (Py.len l) a) in *.
  set (hi := Py.norm_index (Py.len l) b) in *.
  assert (Hgen : forall rows,
             length rows = Z.to_nat (hi - lo) ->
             Py.len (firstn (Z.to_nat lo) l ++ rows
                       ++ skipn (Z.to_nat lo + Z.to_nat (hi - lo)) l) = Py.len l
             /\ (Forall P l -> Forall P rows ->
                 Forall P (firstn (Z.to_nat lo) l ++ rows
                             ++ skipn (Z.to_nat lo + Z.to_nat (hi - lo)) l))).
  { intros rows Hrows. split.
    - unfold Py.len in *. rewrite !length_app, length_firstn, length_skipn. lia.
    - intros Hl Hr. apply Forall_app. split; [apply Forall_firstn_keep, Hl|].
      apply Forall_app. split; [exact Hr|apply Forall_skipn_keep, Hl]. }
  destruct (Nat.eqb_spec (length src) (Z.to_nat (hi - lo))) as [Hlen|Hlen].
  - injection E as <-. apply Hgen. exact Hlen.
  - destruct src as [|x [|y src]]; try discriminate E.
    injection E as <-.
    destruct (Hgen (repeat x (Z.to_nat (hi - lo))) (repeat_length _ _)) as [HL HF].
    split; [exact HL|]. intros Hl Hsrc. apply HF; [exact Hl|].
    apply Forall_forall. intros y Hy. apply repeat_spec in Hy. subst y.
    inversion Hsrc; assumption.
Qed.

Lemma fill_slice_keeps (f : A -> A) (l : list A) (a b : Z) :
  (forall x, P x -> P (f x)) ->
  Py.len (Py.fill_slice f l a b) = Py.len l
  /\ (Forall P l -> Forall P (Py.fill_slice f l a b)).
Proof.
  intros Hf. unfold Py.fill_slice.
  pose proof (norm_index_bounds (Py.len l) a ltac:(unfold Py.len; lia)) as Hlo.
  pose proof (norm_index_bounds (Py.len l) b ltac:(unfold Py.len; lia)) as Hhi.
  set (lo := Py.norm_index (Py.len l) a) in *.
  set (hi := Py.norm_index (Py.len l) b) in *.
  split.
  - unfold Py.len in *.
    rewrite !length_app, length_map, !length_firstn, !length_skipn. lia.
  - intros Hl. apply Forall_app. split; [apply Forall_firstn_keep, Hl|].
    apply Forall_app. split; [|apply Forall_skipn_keep, Hl].
    apply Forall_map.
    eapply Forall_impl; [exact Hf|].
    apply Forall_firstn_keep, Forall_skipn_keep, Hl.
Qed.

Lemma slice_nothing (l : list A) (a b : Z) :
  0 <= a -> 0 <= b -> Z.min b (Py.len l) <= Z.min a (Py.len l) ->
  Py.slice l a b = [].
Proof.
  intros Ha Hb Hle. unfold Py.slice. rewrite !norm_index_nonneg by assumption.
  replace (Z.to_nat (Z.min b (Py.len l) - Z.min a (Py.len l))) with 0%nat by lia.
  reflexivity.
Qed.

Lemma set_slice_nothing (l : list A) (a b : Z) :
  0 <= a -> 0 <= b -> Z.min b (Py.len l) <= Z.min a (Py.len l) ->
  Py.set_slice l a b [] = Some l.
Proof.
  intros Ha Hb Hle. unfold Py.set_slice. rewrite !norm_index_nonneg by assumption.
  replace (Z.to_nat (Z.min b (Py.len l) - Z.min a (Py.len l))) with 0%nat by lia.
  simpl. rewrite Nat.add_0_r, firstn_skipn. reflexivity.
Qed.

Lemma fill_slice_past_end (f : A -> A) (l : list A) (a b : Z) :
  Py.len l <= b -> Py.fill_slice f l a b = Py.fill_slice f l a (Py.len l).
Proof.
  intros Hb. unfold Py.fill_slice.
  assert (E : Py.norm_index (Py.len l) b = Py.norm_index (Py.len l) (Py.len l)).
  { unfold Py.len in *. rewrite !norm_index_nonneg by lia. lia. }
  rewrite E. reflexivity.
Qed.
End SliceShape.

Lemma align_keeps_shape
    (variant : Variant) (interval : Interval) (vout vout' : VariantOutput)
    (length_alter n : Z) (t : nat) :
  has_shape (reference vout) n t ->
  align_reference_for_indel variant interval vout length_alter = Some vout' ->
  has_shape (reference vout') n t /\ alternate vout' = alternate vout.
Proof.
  intros [Hn Hw] E. unfold align_reference_for_indel in E.
  assert (Hnan : forall r : list float, length r = t -> length (nan_row r) = t)
    by (intros r Hr; unfold nan_row; rewrite length_map; exact Hr).
  destruct (length_alter >? 0).
  - destruct (Py.set_slice (reference vout) _ _ _) as [v1|] eqn:E1; [|discriminate E].
    injection E as <-. simpl. split; [|reflexivity].
    destruct (set_slice_keeps (fun r => length r = t) _ _ _ _ _ E1) as [L1 F1].
    destruct (fill_slice_keeps (fun r => length r = t) nan_row v1
                (interval_end interval - interval_start interval - length_alter)
                (interval_end interval - interval_start interval) Hnan) as [L2 F2].
    split; [lia|]. apply F2, F1; [exact Hw|apply Forall_slice, Hw].
  - destruct (length_alter <? 0).
    + destruct (Py.set_slice (reference vout) _ _ _) as [v1|] eqn:E1; [|discriminate E].
      injection E as <-. simpl. split; [|reflexivity].
      destruct (set_slice_keeps (fun r => length r = t) _ _ _ _ _ E1) as [L1 F1].
      destruct (fill_slice_keeps (fun r => length r = t) nan_row v1
                  (position variant - interval_start interval)
                  (position variant - interval_start interval - length_alter) Hnan)
        as [L2 F2].
      split; [lia|]. apply F2, F1; [exact Hw|apply Forall_slice, Hw].
    + injection E as <-. split; [split; assumption|reflexivity].
Qed.

(** X8: whenever the aligner returns, the reference matrix has the shape it
    had before: the number of rows and the width of every row are kept, for
    every mutation offset and every length_alter, so the reference and the
    alternate matrices still go together. *)
Theorem align_reference_for_indel_keeps_shape
    (variant : Variant) (interval : Interval) (vout vout' : VariantOutput)
    (length_alter n : Z) (t : nat) :
  has_shape (reference vout) n t ->
  align_reference_for_indel variant interval vout length_alter = Some vout' ->
  has_shape (reference vout') n t /\ alternate vout' = alternate vout.
Proof.
  exact (align_keeps_shape variant interval vout vout' length_alter n t).
Qed.

Lemma align_reference_for_indel_keeps_shape_witness :
  exists vout',
    has_shape (reference ten_out) 10 1
    /\ align_reference_for_indel deletion_5_at_8 ten_wide ten_out
         (length_alter_of deletion_5_at_8) = Some vout'
    /\ has_shape (reference vout') 10 1.
Proof.
  assert (Hs : has_shape (reference ten_out) 10 1)
    by (split; [reflexivity | repeat constructor]).
  eexists. split; [exact Hs|].
  match goal with
  | |- _ = Some ?v /\ _ =>
      assert (E : align_reference_for_indel deletion_5_at_8 ten_wide ten_out
                    (length_alter_of deletion_5_at_8) = Some v)
        by (vm_compute; reflexivity)
  end.
  split; [exact E|].
  exact (proj1 (align_reference_for_indel_keeps_shape _ _ _ _ _ 10 1 Hs E)).
Defined.

(** X9: when the shifted span runs past the interval end
    (offset + |length_alter| > width, with |length_alter| <= width), the
    aligner does not raise and copies nothing: a deletion turns the last
    length_alter rows into not-a-number, an insertion every row from the
    mutation offset on, and all other rows are as before. *)
Theorem align_reference_for_indel_truncates
    (variant : Variant) (interval : Interval) (vout : VariantOutput)
    (length_alter : Z) (t : nat) :
  let off := mutation_offset variant interval in
  let n := interval_width interval in
  let values := reference vout in
  has_shape values n t -> 0 <= off <= n ->
  length_alter <> 0 -> Z.abs length_alter <= n -> n < off + Z.abs length_alter ->
  exists values',
    align_reference_for_indel variant interval vout length_alter
    = Some {| reference := values'; alternate := alternate vout |}
    /\ Py.len values' = n
    /\ forall i, 0 <= i < n ->
         Py.get values' i
         = if i <? (if length_alter >? 0 then n - length_alter else off)
           then Py.get values i
           else Some (repeat PrimFloat.nan t).
Proof.
  intros off n values Hshape Hoff Hnz Hsmall Hover.
  pose proof Hshape as [Hn _].
  unfold align_reference_for_indel.
  fold (mutation_offset variant interval) (interval_width interval).
  fold off n values.
  assert (Hnanrow : forall i, 0 <= i < n ->
            option_map nan_row (Py.get values i) = Some (repeat PrimFloat.nan t)).
  { intros i Hi. destruct (get_row_of_shape values n t i Hshape Hi) as (r & Er & Lr).
    rewrite Er. simpl. rewrite nan_row_repeat, Lr. reflexivity. }
  destruct (Z.gtb_spec length_alter 0) as [Hdel|Hnodel].
  - rewrite (slice_nothing values (off + length_alter) n) by lia.
    rewrite (set_slice_nothing values off (n - length_alter)) by lia.
    destruct (fill_slice_spec nan_row values (n - length_alter) n) as (L2 & G2);
      try lia.
    eexists. split; [reflexivity|]. split; [lia|].
    intros i Hi. rewrite G2.
    destruct (Z.ltb_spec i (n - length_alter)), (Z.leb_spec (n - length_alter) i);
      try lia; simpl; [reflexivity|].
    destruct (Z.ltb_spec i n); [|lia]. apply Hnanrow. exact Hi.
  - destruct (Z.ltb_spec length_alter 0) as [Hins|Hsub]; [|lia].
    rewrite (slice_nothing values off (n + length_alter)) by lia.
    rewrite (set_slice_nothing values (off - length_alter) n) by lia.
    rewrite (fill_slice_past_end nan_row values off (off - length_alter)) by lia.
    destruct (fill_slice_spec nan_row values off (Py.len values)) as (L2 & G2);
      try lia.
    eexists. split; [reflexivity|]. split; [lia|].
    intros i Hi. rewrite G2.
    destruct (Z.ltb_spec i off), (Z.leb_spec off i); try lia; simpl; [reflexivity|].
    destruct (Z.ltb_spec i (Py.len values)); [|lia]. apply Hnanrow. exact Hi.
Qed.

Lemma align_reference_for_indel_truncates_witness :
  (has_shape (reference ten_out) (interval_width ten_wide) 1
   /\ 0 <= mutation_offset deletion_5_at_8 ten_wide <= interval_width ten_wide
   /\ length_alter_of deletion_5_at_8 <> 0
   /\ Z.abs (length_alter_of deletion_5_at_8) <= interval_width ten_wide
   /\ interval_width ten_wide
      < mutation_offset deletion_5_at_8 ten_wide
        + Z.abs (length_alter_of deletion_5_at_8))
  /\ exists values',
       align_reference_for_indel deletion_5_at_8 ten_wide ten_out
         (length_alter_of deletion_5_at_8)
       = Some {| reference := values'; alternate := alternate ten_out |}
       /\ Py.get values' 4 = Some [4]%float
       /\ Py.get values' 5 = Some [PrimFloat.nan]
       /\ Py.get values' 9 = Some [PrimFloat.nan].
Proof.
  assert (Hs : has_shape (reference ten_out) (interval_width ten_wide) 1)
    by (split; [reflexivity | repeat constructor]).
  assert (Hoff : 0 <= mutation_offset deletion_5_at_8 ten_wide
                 <= interval_width ten_wide)
    by (vm_compute; split; discriminate).
  assert (Hnz : length_alter_of deletion_5_at_8 <> 0) by (vm_compute; discriminate).
  assert (Hsmall : Z.abs (length_alter_of deletion_5_at_8) <= interval_width ten_wide)
    by (vm_compute; discriminate).
  assert (Hover : interval_width ten_wide
                  < mutation_offset deletion_5_at_8 ten_wide
                    + Z.abs (length_alter_of deletion_5_at_8))
    by (vm_compute; reflexivity).
  split; [tauto|].
  destruct (align_reference_for_indel_truncates deletion_5_at_8 ten_wide ten_out
              (length_alter_of deletion_5_at_8) 1 Hs Hoff Hnz Hsmall Hover)
    as (values' & E & _ & G).
  exists values'. split; [exact E|].
  split; [exact (G 4 ltac:(vm_compute; split; [discriminate|reflexivity]))|].
  split; [exact (G 5 ltac:(vm_compute; split; [discriminate|reflexivity]))|].
  exact (G 9 ltac:(vm_compute; split; [discriminate|reflexivity])).
Defined.

(* ------------------------------------------------------------------ *)
(** ** main: the rows of a unit *)
(* ------------------------------------------------------------------ *)

Lemma enumerate_from_length {A} (l : list A) :
  forall i, length (enumerate_from i l) = length l.
Proof.
  induction l as [|x l IH]; intros i; simpl; [reflexivity|]. rewrite IH. reflexivity.
Qed.

Lemma enumerate_from_index {A} (l : list A) :
  forall i k x, In (k, x) (enumerate_from i l) -> i <= k < i + Py.len l /\ In x l.
Proof.
  unfold Py.len. induction l as [|y l IH]; intros i k x Hin; simpl in Hin;
    [destruct Hin|].
  destruct Hin as [E|Hin].
  - injection E as <- <-. simpl. split; [lia|left; reflexivity].
  - destruct (IH _ _ _ Hin) as [Hk Hx]. simpl length. split; [lia|right; exact Hx].
Qed.

Section UnitRows.
Variables nanmean nanmax nanmin : list float -> float.
Variable args : Args.
Variable variant : Variant.
Variable the_ontology : string.
Variable track_names : list string.
Variables start_idx center_idx : Z.

Lemma classify_direction_not_none mean_s max_s min_s :
  classify_direction mean_s max_s min_s <> "none"%string.
Proof.
  unfold classify_direction.
  destruct (_ && _); [discriminate|]. destruct (_ && _); discriminate.
Qed.

Lemma track_rows_cases (win_scores : matrix float) (ti : nat) :
  let regions := track_regions args win_scores ti in
  let scores := column PrimFloat.nan win_scores ti in
  track_rows nanmean nanmax nanmin args variant the_ontology track_names
    start_idx center_idx win_scores ti
  = match regions with
    | [] => [non_significant_row nanmean nanmax nanmin variant the_ontology
               track_names scores ti]
    | _ :: _ =>
        map (fun p => region_row nanmean nanmax nanmin args variant the_ontology
                        track_names start_idx center_idx scores regions ti
                        (fst p) (snd p))
            (enumerate_from 0 regions)
    end.
Proof.
  intros regions scores. unfold track_rows. fold scores.
  change (call_regions scores (threshold args) (min_length args) (merge_distance args))
    with regions.
  destruct regions as [|r rs] eqn:E; [reflexivity|].
  cbv zeta. unfold Py.len. simpl length.
  destruct (Z.gtb_spec (Z.of_nat (S (length rs))) 0); [reflexivity|lia].
Qed.

(** X10: in the rows of a unit the columns agree with each other: a row is not
    significant exactly when its direction is 'none', exactly when its region
    index is -1 and exactly when its region count is 0; a significant row has
    0 <= region_index < n_regions; and no row has a plot file yet. *)
Theorem unit_rows_are_consistent
    (win_scores : matrix float) (n_tracks : nat) (r : ResultRow) :
  In r (scan_tracks nanmean nanmax nanmin args variant the_ontology track_names
          start_idx center_idx win_scores n_tracks []) ->
  (is_significant r = false <-> direction r = "none"%string)
  /\ (is_significant r = false <-> region_index r = -1)
  /\ (is_significant r = false <-> n_regions r = 0)
  /\ (is_significant r = true -> 0 <= region_index r < n_regions r)
  /\ plot_file r = None.
Proof.
  unfold scan_tracks. rewrite fold_left_append_rows. simpl app.
  intros Hin. apply in_flat_map in Hin. destruct Hin as (ti & _ & Hin).
  rewrite track_rows_cases in Hin.
  destruct (track_regions args win_scores ti) as [|r0 rs] eqn:E.
  - destruct Hin as [<-|[]]. simpl.
    repeat split; try reflexivity; try discriminate.
  - apply in_map_iff in Hin. destruct Hin as ([k x] & <- & Hin).
    apply enumerate_from_index in Hin. destruct Hin as [Hk _].
    simpl fst in *. simpl snd in *. simpl.
    repeat split; try reflexivity; try discriminate; try lia;
      try (intros Hd; exfalso; revert Hd; apply classify_direction_not_none);
      intros Hbad; exfalso; unfold Py.len in *; simpl length in *; lia.
Qed.

Lemma track_rows_length (win_scores : matrix float) (ti : nat) :
  Py.len (track_rows nanmean nanmax nanmin args variant the_ontology track_names
            start_idx center_idx win_scores ti)
  = Z.max 1 (Py.len (track_regions args win_scores ti)).
Proof.
  rewrite track_rows_cases.
  destruct (track_regions args win_scores ti) as [|r0 rs]; [reflexivity|].
  unfold Py.len. rewrite length_map, enumerate_from_length. simpl length. lia.
Qed.

Lemma unit_rows_length (win_scores : matrix float) (tracks : list nat) :
  Py.len (flat_map (track_rows nanmean nanmax nanmin args variant the_ontology
                      track_names start_idx center_idx win_scores) tracks)
  = fold_right Z.add 0
      (map (fun ti => Z.max 1 (Py.len (track_regions args win_scores ti))) tracks)
  /\ Py.len tracks
     <= Py.len (flat_map (track_rows nanmean nanmax nanmin args variant the_ontology
                            track_names start_idx center_idx win_scores) tracks).
Proof.
  induction tracks as [|ti tracks [IH1 IH2]]; [split; reflexivity|].
  simpl flat_map. simpl map. simpl fold_right.
  pose proof (track_rows_length win_scores ti) as Hti.
  unfold Py.len in *. rewrite length_app. simpl length. split; lia.
Qed.

(** X11: every track contributes max(1, number of its regions) rows, so a unit
    adds at least one row per track; the rows that were in the list before
    stay in front, unchanged. *)
Theorem scan_tracks_row_count
    (win_scores : matrix float) (n_tracks : nat) (results_rows : list ResultRow) :
  let rows := scan_tracks nanmean nanmax nanmin args variant the_ontology
                track_names start_idx center_idx win_scores n_tracks results_rows in
  Py.len rows = Py.len results_rows + unit_row_count args win_scores n_tracks
  /\ Py.len results_rows + Z.of_nat n_tracks <= Py.len rows
  /\ firstn (length results_rows) rows = results_rows.
Proof.
  intros rows. unfold rows, scan_tracks. rewrite fold_left_append_rows.
  destruct (unit_rows_length win_scores (seq 0 n_tracks)) as [H1 H2].
  unfold unit_row_count. unfold Py.len in *.
  rewrite length_seq in H2. rewrite length_app.
  split; [lia|]. split; [lia|].
  rewrite firstn_app, firstn_all, Nat.sub_diag. simpl. apply app_nil_r.
Qed.
End UnitRows.

(* ------------------------------------------------------------------ *)
(** ** main: the backward slice over the last n_tracks rows *)
(* ------------------------------------------------------------------ *)

Section Suffix.
Context {A B : Type} (f : B -> list A) (sig : A -> bool).
(** Each group is either non-empty with every row flagged, or one row that is
    not flagged. *)
Hypothesis groups :
  forall x, (f x <> [] /\ forallb sig (f x) = true)
            \/ (exists r0, f x = [r0] /\ sig r0 = false).

Lemma skipn_In_keep (n : nat) (l : list A) (x : A) : In x (skipn n l) -> In x l.
Proof.
  intros Hin. assert (HF : Forall (fun y => In y l) (skipn n l)).
  { apply Forall_skipn_keep. apply Forall_forall. auto. }
  rewrite Forall_forall in HF. apply HF. exact Hin.
Qed.

Lemma flagged_suffix (l : list A) (d : nat) :
  forallb sig l = true -> (d < length l)%nat -> existsb sig (skipn d l) = true.
Proof.
  intros Hall Hd. destruct (skipn d l) as [|y ys] eqn:E.
  - assert (Hlen : length (skipn d l) = 0%nat) by (rewrite E; reflexivity).
    rewrite length_skipn in Hlen. lia.
  - simpl. rewrite forallb_forall in Hall.
    rewrite (Hall y); [reflexivity|].
    apply (skipn_In_keep d). rewrite E. left. reflexivity.
Qed.

Lemma group_length_or_flag (x : B) :
  (length (f x) = 1%nat /\ existsb sig (f x) = false)
  \/ ((1 <= length (f x))%nat /\ forallb sig (f x) = true).
Proof.
  destruct (groups x) as [[Hne Hall]|(r0 & E & Hr0)].
  - right. split; [|exact Hall]. destruct (f x); [congruence|simpl; lia].
  - left. rewrite E. simpl. rewrite Hr0. split; reflexivity.
Qed.

Lemma flat_map_length_ge (l : list B) : (length l <= length (flat_map f l))%nat.
Proof.
  induction l as [|x l IH]; simpl; [lia|]. rewrite length_app.
  destruct (group_length_or_flag x) as [[H1 _]|[H1 _]]; lia.
Qed.

Lemma flat_map_longer_flagged (l : list B) :
  (length l < length (flat_map f l))%nat -> existsb sig (flat_map f l) = true.
Proof.
  induction l as [|x l IH]; simpl; [lia|]. rewrite length_app, existsb_app.
  intros Hlen.
  destruct (group_length_or_flag x) as [[H1 _]|[H1 Hall]].
  - rewrite IH by lia. apply orb_true_r.
  - pose proof (flagged_suffix (f x) 0 Hall ltac:(lia)) as H0. simpl in H0.
    rewrite H0. reflexivity.
Qed.

Lemma existsb_last_rows (l : list B) (m : nat) :
  (length l <= m)%nat ->
  existsb sig (skipn (length (flat_map f l) - m) (flat_map f l))
  = existsb sig (flat_map f l).
Proof.
  revert m. induction l as [|x l IH]; intros m Hm; simpl flat_map.
  - rewrite skipn_nil. reflexivity.
  - simpl length in Hm. rewrite length_app, skipn_app, !existsb_app.
    set (U := flat_map f l) in *.
    assert (Hfx : (1 <= length (f x))%nat)
      by (destruct (group_length_or_flag x) as [[H1 _]|[H1 _]]; lia).
    destruct (Nat.le_gt_cases (length (f x)) (length (f x) + length U - m))
      as [Hdrop|Hkeep].
    + rewrite skipn_all2 by exact Hdrop. simpl.
      replace (length (f x) + length U - m - length (f x))%nat
        with (length U - m)%nat by lia.
      rewrite (IH m ltac:(lia)).
      assert (HU : existsb sig U = true)
        by (apply flat_map_longer_flagged; fold U; lia).
      rewrite HU.
      symmetry. apply orb_true_r.
    + replace (length (f x) + length U - m - length (f x))%nat with 0%nat by lia.
      simpl skipn. f_equal.
      destruct (group_length_or_flag x) as [[H1 _]|[H1 Hall]].
      * replace (length (f x) + length U - m)%nat with 0%nat by lia. reflexivity.
      * rewrite (flagged_suffix (f x) _ Hall Hkeep).
        pose proof (flagged_suffix (f x) 0 Hall ltac:(lia)) as H0. simpl in H0.
        rewrite H0. reflexivity.
Qed.

Lemma existsb_flat_map (l : list B) :
  existsb sig (flat_map f l) = existsb (fun x => existsb sig (f x)) l.
Proof.
  induction l as [|x l IH]; simpl; [reflexivity|].
  rewrite existsb_app, IH. reflexivity.
Qed.
End Suffix.

Lemma existsb_agree {A} (g h : A -> bool) (l : list A) :
  (forall x, In x l -> g x = h x) -> existsb g l = existsb h l.
Proof.
  induction l as [|x l IH]; intros Hgh; simpl; [reflexivity|].
  rewrite (Hgh x (or_introl eq_refl)), IH; [reflexivity|].
  intros y Hy. apply Hgh. right. exact Hy.
Qed.

Lemma map_agree {A B} (g h : A -> B) (l : list A) :
  (forall x, In x l -> g x = h x) -> map g l = map h l.
Proof.
  induction l as [|x l IH]; intros Hgh; simpl; [reflexivity|].
  rewrite (Hgh x (or_introl eq_refl)), IH; [reflexivity|].
  intros y Hy. apply Hgh. right. exact Hy.
Qed.

Lemma last_rows_of_app {A} (before unit_rows : list A) (n : Z) :
  0 < n <= Py.len unit_rows ->
  last_rows (before ++ unit_rows) n
  = skipn (length unit_rows - Z.to_nat n) unit_rows.
Proof.
  intros Hn. unfold last_rows, Py.slice, Py.norm_index, Py.len in *.
  rewrite length_app.
  destruct (Z.ltb_spec (- n) 0); [|lia].
  destruct (Z.ltb_spec (Z.of_nat (length before + length unit_rows)) 0); [lia|].
  rewrite Z.min_id.
  replace (Z.to_nat (Z.max 0 (- n + Z.of_nat (length before + length unit_rows))))
    with (length before + (length unit_rows - Z.to_nat n))%nat by lia.
  rewrite skipn_app, skipn_all2 by lia. simpl app.
  replace (length before + (length unit_rows - Z.to_nat n) - length before)%nat
    with (length unit_rows - Z.to_nat n)%nat by lia.
  apply firstn_all2. rewrite length_skipn. lia.
Qed.

Lemma fill_last_rows_of_app {A} (g : A -> A) (before unit_rows : list A) (n : Z) :
  0 < n <= Py.len unit_rows ->
  Py.fill_slice g (before ++ unit_rows) (- n) (Py.len (before ++ unit_rows))
  = before ++ firstn (length unit_rows - Z.to_nat n) unit_rows
      ++ map g (skipn (length unit_rows - Z.to_nat n) unit_rows).
Proof.
  intros Hn. unfold Py.fill_slice, Py.norm_index, Py.len in *.
  rewrite length_app.
  destruct (Z.ltb_spec (- n) 0); [|lia].
  destruct (Z.ltb_spec (Z.of_nat (length before + length unit_rows)) 0); [lia|].
  rewrite Z.min_id.
  replace (Z.to_nat (Z.max 0 (- n + Z.of_nat (length before + length unit_rows))))
    with (length before + (length unit_rows - Z.to_nat n))%nat by lia.
  replace (Z.to_nat (Z.of_nat (length before + length unit_rows)
                     - Z.max 0 (- n + Z.of_nat (length before + length unit_rows))))
    with (Z.to_nat n) by lia.
  rewrite firstn_app, firstn_all2 by lia.
  replace (length before + (length unit_rows - Z.to_nat n) - length before)%nat
    with (length unit_rows - Z.to_nat n)%nat by lia.
  rewrite skipn_app, (skipn_all2 before) by lia. simpl app.
  replace (length before + (length unit_rows - Z.to_nat n) - length before)%nat
    with (length unit_rows - Z.to_nat n)%nat by lia.
  rewrite (skipn_all2 (before ++ unit_rows)) by (rewrite length_app; lia).
  rewrite app_nil_r, <- app_assoc.
  rewrite (firstn_all2 (skipn _ unit_rows)) by (rewrite length_skipn; lia).
  reflexivity.
Qed.

Section UnitEnd.
Variables nanmean nanmax nanmin : list float -> float.
Variable args : Args.
Variable variant : Variant.
Variable the_ontology : string.
Variable track_names : list string.
Variables start_idx center_idx : Z.

Lemma track_rows_groups (win_scores : matrix float) (ti : nat) :
  let rows := track_rows nanmean nanmax nanmin args variant the_ontology
                track_names start_idx center_idx win_scores ti in
  (rows <> [] /\ forallb is_significant rows = true)
  \/ (exists r0, rows = [r0] /\ is_significant r0 = false).
Proof.
  intros rows. unfold rows. rewrite track_rows_cases.
  destruct (track_regions args win_scores ti) as [|r0 rs].
  - right. eexists. split; reflexivity.
  - left. split; [simpl; discriminate|].
    apply forallb_forall. intros r Hin. apply in_map_iff in Hin.
    destruct Hin as (p & <- & _). reflexivity.
Qed.

Lemma track_rows_flag (win_scores : matrix float) (ti : nat) :
  existsb is_significant
    (track_rows nanmean nanmax nanmin args variant the_ontology track_names
       start_idx center_idx win_scores ti)
  = (Py.len (track_regions args win_scores ti) >? 0).
Proof.
  rewrite track_rows_cases.
  destruct (track_regions args win_scores ti) as [|r0 rs]; reflexivity.
Qed.

Lemma track_rows_match (win_scores : matrix float) (ti : nat) (r : ResultRow) :
  In r (track_rows nanmean nanmax nanmin args variant the_ontology track_names
          start_idx center_idx win_scores ti) ->
  matches_unit variant the_ontology r = true.
Proof.
  rewrite track_rows_cases. intros Hin.
  assert (Hok : forall r', chrom r' = chromosome variant ->
                           pos r' = position variant ->
                           ontology r' = the_ontology ->
                           matches_unit variant the_ontology r' = true).
  { intros r' E1 E2 E3. unfold matches_unit.
    rewrite E1, E2, E3, !String.eqb_refl, Z.eqb_refl. reflexivity. }
  destruct (track_regions args win_scores ti) as [|r0 rs].
  - destruct Hin as [<-|[]]. apply Hok; reflexivity.
  - apply in_map_iff in Hin. destruct Hin as (p & <- & _). apply Hok; reflexivity.
Qed.

Lemma unit_rows_match (win_scores : matrix float) (tracks : list nat) (r : ResultRow) :
  In r (flat_map (track_rows nanmean nanmax nanmin args variant the_ontology
                    track_names start_idx center_idx win_scores) tracks) ->
  matches_unit variant the_ontology r = true.
Proof.
  intros Hin. apply in_flat_map in Hin. destruct Hin as (ti & _ & Hin).
  exact (track_rows_match win_scores ti r Hin).
Qed.

Lemma sig_any_of_unit (win_scores : matrix float) (n_tracks : nat)
    (results_rows : list ResultRow) :
  (0 < n_tracks)%nat ->
  sig_any variant the_ontology
    (scan_tracks nanmean nanmax nanmin args variant the_ontology track_names
       start_idx center_idx win_scores n_tracks results_rows)
    (Z.of_nat n_tracks)
  = any_track_significant args win_scores n_tracks.
Proof.
  intros Hn. unfold sig_any, scan_tracks. rewrite fold_left_append_rows.
  set (f := track_rows nanmean nanmax nanmin args variant the_ontology track_names
              start_idx center_idx win_scores).
  pose proof (flat_map_length_ge f is_significant (track_rows_groups win_scores)
                (seq 0 n_tracks)) as Hlen.
  rewrite length_seq in Hlen.
  rewrite last_rows_of_app by (unfold Py.len; lia).
  rewrite Nat2Z.id.
  rewrite (existsb_agree _ is_significant).
  - rewrite (existsb_last_rows f is_significant (track_rows_groups win_scores)
               (seq 0 n_tracks) n_tracks) by (rewrite length_seq; lia).
    rewrite existsb_flat_map. unfold any_track_significant.
    apply existsb_agree. intros ti _. apply track_rows_flag.
  - intros r Hin. apply skipn_In_keep in Hin.
    rewrite (unit_rows_match win_scores _ r Hin). apply andb_true_r.
Qed.

(** X12: the significance of a unit, read by the code from the last n_tracks
    rows of the list, is right whatever the list held before and however many
    rows the unit added: it is true exactly when some track of the unit has a
    region. *)
Theorem sig_any_is_any_track_significant
    (win_scores : matrix float) (n_tracks : nat) (results_rows : list ResultRow) :
  (0 < n_tracks)%nat ->
  sig_any variant the_ontology
    (scan_tracks nanmean nanmax nanmin args variant the_ontology track_names
       start_idx center_idx win_scores n_tracks results_rows)
    (Z.of_nat n_tracks)
  = any_track_significant args win_scores n_tracks.
Proof.
  exact (sig_any_of_unit win_scores n_tracks results_rows).
Qed.

Lemma finish_unit_of_unit
    (plot_non_sig : bool) (plot_path : string)
    (win_scores : matrix float) (n_tracks : nat) (results_rows : list ResultRow) :
  (0 < n_tracks)%nat ->
  let unit_rows :=
    flat_map (track_rows nanmean nanmax nanmin args variant the_ontology
                track_names start_idx center_idx win_scores) (seq 0 n_tracks) in
  let k := (length unit_rows - n_tracks)%nat in
  finish_unit plot_non_sig variant the_ontology plot_path (Z.of_nat n_tracks)
    (scan_tracks nanmean nanmax nanmin args variant the_ontology track_names
       start_idx center_idx win_scores n_tracks results_rows)
  = results_rows
      ++ (if any_track_significant args win_scores n_tracks || plot_non_sig
          then firstn k unit_rows ++ map (set_plot_file plot_path) (skipn k unit_rows)
          else unit_rows).
Proof.
  intros Hn unit_rows k. unfold finish_unit.
  rewrite (sig_any_of_unit win_scores n_tracks results_rows Hn).
  unfold scan_tracks. rewrite fold_left_append_rows. fold unit_rows.
  destruct (any_track_significant args win_scores n_tracks || plot_non_sig);
    [|reflexivity].
  pose proof (flat_map_length_ge
                (track_rows nanmean nanmax nanmin args variant the_ontology
                   track_names start_idx center_idx win_scores)
                is_significant (track_rows_groups win_scores)
                (seq 0 n_tracks)) as Hlen.
  rewrite length_seq in Hlen. fold unit_rows in Hlen.
  unfold backfill_plot_file.
  rewrite fill_last_rows_of_app by (unfold Py.len; lia).
  rewrite Nat2Z.id. fold k. do 2 f_equal.
  apply map_agree. intros r Hin. apply skipn_In_keep in Hin.
  rewrite (unit_rows_match win_scores _ r Hin). reflexivity.
Qed.

(** X13: when the unit is plotted, the plot file is written into the last
    n_tracks rows of the list and into no other: the rows of earlier units are
    never touched, and when the unit added more than n_tracks rows (a track
    with several regions) its first rows keep no plot file.  When the unit is
    not plotted the list is left as the scan built it. *)
Theorem finish_unit_fills_last_rows
    (plot_non_sig : bool) (plot_path : string)
    (win_scores : matrix float) (n_tracks : nat) (results_rows : list ResultRow) :
  (0 < n_tracks)%nat ->
  let unit_rows :=
    flat_map (track_rows nanmean nanmax nanmin args variant the_ontology
                track_names start_idx center_idx win_scores) (seq 0 n_tracks) in
  let k := (length unit_rows - n_tracks)%nat in
  finish_unit plot_non_sig variant the_ontology plot_path (Z.of_nat n_tracks)
    (scan_tracks nanmean nanmax nanmin args variant the_ontology track_names
       start_idx center_idx win_scores n_tracks results_rows)
  = results_rows
      ++ (if any_track_significant args win_scores n_tracks || plot_non_sig
          then firstn k unit_rows ++ map (set_plot_file plot_path) (skipn k unit_rows)
          else unit_rows).
Proof.
  exact (finish_unit_of_unit plot_non_sig plot_path win_scores n_tracks results_rows).
Qed.
End UnitEnd.

(* ------------------------------------------------------------------ *)
(** ** main: one unit from the prediction to its rows *)
(* ------------------------------------------------------------------ *)

Lemma compute_window_scores_no_window {F} `{Arith F}
    (alt_vals ref_vals : matrix F) (start_idx end_idx window_size : Z) (eps : F) :
  end_idx - start_idx < window_size ->
  compute_window_scores alt_vals ref_vals start_idx end_idx window_size eps = [].
Proof.
  intros Hsmall. unfold compute_window_scores. cbv zeta.
  rewrite Z.gtb_ltb.
  destruct (Z.leb_spec
              ((if Py.len alt_vals <? end_idx then Py.len alt_vals else end_idx)
               - (if start_idx <? 0 then 0 else start_idx) - window_size + 1) 0)
    as [Hle|Hgt]; [reflexivity|].
  exfalso.
  destruct (Z.ltb_spec (Py.len alt_vals) end_idx), (Z.ltb_spec start_idx 0); lia.
Qed.

Lemma column_length {F} (d : F) (m : matrix F) (c : nat) :
  Py.len (column d m c) = Py.len m.
Proof.
  unfold Py.len, column. rewrite length_map. reflexivity.
Qed.

Section UnitFacts.
Variables nanmean nanmax nanmin : list float -> float.
Variable args : Args.
Variable plot_non_sig : bool.

(** X14: a window wider than the scanned span (window_size > 2 * scan_span)
    leaves no window to score: the unit is passed over and the list of rows is
    as it was, whatever the variant and the prediction are (unless the
    aligner raised before). *)
Theorem process_unit_skips_when_window_exceeds_span
    (variant : Variant) (interval : Interval) (vout : VariantOutput)
    (the_ontology : string) (track_names : list string) (plot_path : string)
    (results_rows rows : list ResultRow) :
  2 * scan_span args < window_size args ->
  process_unit nanmean nanmax nanmin args plot_non_sig variant interval vout
    the_ontology track_names plot_path results_rows = Some rows ->
  rows = results_rows.
Proof.
  intros Hsmall E. unfold process_unit in E.
  destruct (Nat.eqb (n_tracks_of (alternate vout)) 0); [congruence|].
  destruct (if negb (length_alter_of variant =? 0)
            then align_reference_for_indel variant interval vout
                   (length_alter_of variant)
            else Some vout) as [vout1|]; [|discriminate E].
  rewrite compute_window_scores_no_window in E by lia.
  simpl in E. congruence.
Qed.

(** X15: every region a unit reports lies inside the scanned span and is at
    least min_length + window_size - 1 bases long: its relative bounds satisfy
    -scan_span <= rel_start <= rel_end < scan_span, and the absolute bounds
    are the variant position plus the relative ones. *)
Theorem reported_regions_lie_in_scan_span
    (variant : Variant) (interval : Interval) (vout : VariantOutput)
    (the_ontology : string) (track_names : list string) (plot_path : string)
    (rows : list ResultRow) (n : Z) (t : nat) (r : ResultRow) :
  has_shape (alternate vout) n t -> has_shape (reference vout) n t ->
  1 <= window_size args ->
  process_unit nanmean nanmax nanmin args plot_non_sig variant interval vout
    the_ontology track_names plot_path [] = Some rows ->
  In r rows -> is_significant r = true ->
  exists a b,
    rel_start_bp r = bp_int a /\ rel_end_bp r = bp_int b
    /\ abs_start_bp r = bp_int (position variant + a)
    /\ abs_end_bp r = bp_int (position variant + b)
    /\ - scan_span args <= a /\ a <= b /\ b < scan_span args
    /\ min_length args + window_size args - 1 <= b - a + 1.
Proof.
  intros Halt Href Hw E Hin Hsig. unfold process_unit in E.
  destruct (Nat.eqb_spec (n_tracks_of (alternate vout)) 0) as [Hz|Hnz].
  { injection E as <-. destruct Hin. }
  destruct (if negb (length_alter_of variant =? 0)
            then align_reference_for_indel variant interval vout
                   (length_alter_of variant)
            else Some vout) as [vout1|] eqn:Ealign; [|discriminate E].
  assert (Href1 : has_shape (reference vout1) n t).
  { destruct (negb (length_alter_of variant =? 0)).
    - exact (proj1 (align_keeps_shape _ _ _ _ _ n t Href Ealign)).
    - injection Ealign as <-. exact Href. }
  set (c := position variant - interval_start interval) in *.
  set (win_scores := compute_window_scores (alternate vout) (reference vout1)
                       (c - scan_span args) (c + scan_span args)
                       (window_size args) (epsilon args)) in *.
  destruct (mat_size win_scores =? 0).
  { injection E as <-. destruct Hin. }
  injection E as <-.
  rewrite (finish_unit_of_unit nanmean nanmax nanmin args variant the_ontology
             track_names (c - scan_span args) c plot_non_sig plot_path win_scores
             (n_tracks_of (alternate vout)) [] ltac:(lia)) in Hin.
  simpl app in Hin.
  set (U := flat_map (track_rows nanmean nanmax nanmin args variant the_ontology
                        track_names (c - scan_span args) c win_scores)
              (seq 0 (n_tracks_of (alternate vout)))) in *.
  assert (Hr : exists r', In r' U
                 /\ is_significant r' = is_significant r
                 /\ rel_start_bp r' = rel_start_bp r
                 /\ rel_end_bp r' = rel_end_bp r
                 /\ abs_start_bp r' = abs_start_bp r
                 /\ abs_end_bp r' = abs_end_bp r).
  { destruct (_ || _).
    - apply in_app_or in Hin. destruct Hin as [Hin|Hin].
      + exists r. split; [|repeat split].
        assert (HF : Forall (fun y => In y U) (firstn (length U - n_tracks_of (alternate vout)) U))
          by (apply Forall_firstn_keep, Forall_forall; auto).
        rewrite Forall_forall in HF. apply HF. exact Hin.
      + apply in_map_iff in Hin. destruct Hin as (r' & <- & Hin).
        exists r'. split; [|repeat split]. apply (skipn_In_keep _ _ _ Hin).
    - exists r. split; [exact Hin|repeat split]. }
  destruct Hr as (r' & Hin' & Es & E1 & E2 & E3 & E4).
  rewrite <- Es in Hsig. rewrite <- E1, <- E2, <- E3, <- E4.
  clear r Hin Es E1 E2 E3 E4.
  apply in_flat_map in Hin'. destruct Hin' as (ti & _ & Hin').
  rewrite track_rows_cases in Hin'.
  destruct (track_regions args win_scores ti) as [|r0 rs] eqn:Ereg.
  { destruct Hin' as [<-|[]]. discriminate Hsig. }
  apply in_map_iff in Hin'. destruct Hin' as ([k reg] & <- & Hin').
  apply enumerate_from_index in Hin'. destruct Hin' as [_ Hreg].
  rewrite <- Ereg in Hreg. unfold track_regions in Hreg.
  destruct (call_regions_region_bounds _ _ _ _ _ Hreg) as (_ & _ & H0 & Hle & Hlen).
  destruct (call_regions_separated (column PrimFloat.nan win_scores ti)
              (threshold args) (min_length args) (merge_distance args)) as [b Hsep].
  destruct (separated_lengths _ _ _ _ Hsep _ Hreg) as [_ Hmin].
  rewrite column_length in Hlen. unfold win_scores in Hlen.
  rewrite (window_rows_count (alternate vout) (reference vout1) n) in Hlen
    by (try apply Halt; try apply Href1; exact Hw).
  unfold region_length in Hmin.
  simpl snd in *. simpl fst in *.
  exists (c - scan_span args + fst reg - c),
         (c - scan_span args + snd reg + window_size args - 1 - c).
  simpl. repeat split; try reflexivity; lia.
Qed.
End UnitFacts.

(* ------------------------------------------------------------------ *)
(** ** _load_vcf *)
(* ------------------------------------------------------------------ *)

Lemma split_on_head_clean (sep : ascii) (s : string) :
  match split_on sep s with
  | [] => False
  | h :: _ => contains sep h = false
  end.
Proof.
  induction s as [|c s IH]; simpl; [reflexivity|].
  destruct (Ascii.eqb c sep) eqn:E; [reflexivity|].
  destruct (split_on sep s) as [|h t]; [destruct IH|].
  simpl. rewrite E. exact IH.
Qed.

Section LoadVcfFacts.
Variable py_int : string -> option Z.

Lemma parse_vcf_line_alt (ln : string) c p r a :
  parse_vcf_line py_int ln = inl (c, p, r, a) -> contains comma a = false.
Proof.
  unfold parse_vcf_line.
  destruct (nth_error _ 0); [|discriminate].
  destruct (nth_error _ 1) as [f1|]; [|discriminate].
  destruct (py_int f1); [|discriminate].
  destruct (nth_error _ 3); [|discriminate].
  destruct (nth_error _ 4) as [f4|]; [|discriminate].
  pose proof (split_on_head_clean comma f4) as Hclean.
  destruct (split_on comma f4) as [|h tl]; [discriminate|].
  intros E. injection E as <- <- <- <-. exact Hclean.
Qed.

Lemma parse_vcf_line_short (ln : string) :
  (length (vcf_fields ln) < 5)%nat ->
  exists e, parse_vcf_line py_int ln = inr e.
Proof.
  unfold parse_vcf_line, vcf_fields. intros Hshort.
  destruct (nth_error _ 0); [|eexists; reflexivity].
  destruct (nth_error _ 1) as [f1|]; [|eexists; reflexivity].
  destruct (py_int f1); [|eexists; reflexivity].
  destruct (nth_error _ 3); [|eexists; reflexivity].
  destruct (nth_error _ 4) as [f4|] eqn:E4; [|eexists; reflexivity].
  assert (4 < length (split_on tab (rstrip_newline ln)))%nat
    by (apply nth_error_Some; congruence).
  lia.
Qed.

Lemma load_vcf_loop_columns (lines : list string) :
  forall chrom pos_ ref_ alt_ tbl,
    load_vcf_loop py_int lines chrom pos_ ref_ alt_ = inl tbl ->
    let k := length (filter is_data_line lines) in
    length (CHROM tbl) = (length chrom + k)%nat
    /\ length (POS tbl) = (length pos_ + k)%nat
    /\ length (REF tbl) = (length ref_ + k)%nat
    /\ length (ALT tbl) = (length alt_ + k)%nat
    /\ (Forall (fun a => contains comma a = false) alt_ ->
        Forall (fun a => contains comma a = false) (ALT tbl)).
Proof.
  induction lines as [|ln lines IH]; intros chrom pos_ ref_ alt_ tbl E; simpl in E.
  - injection E as <-. simpl.
    split; [lia|]. split; [lia|]. split; [lia|]. split; [lia|]. auto.
  - change (filter is_data_line (ln :: lines))
      with (if is_data_line ln then ln :: filter is_data_line lines
            else filter is_data_line lines).
    unfold is_data_line at 1.
    destruct (starts_with_hash ln); simpl negb; cbv iota.
    + exact (IH _ _ _ _ _ E).
    + destruct (parse_vcf_line py_int ln) as [[[[c p] r] a]|e] eqn:Ep;
        [|discriminate E].
      destruct (IH _ _ _ _ _ E) as (H1 & H2 & H3 & H4 & H5).
      rewrite !length_app in *. simpl length in *. cbv zeta.
      split; [lia|]. split; [lia|]. split; [lia|]. split; [lia|].
      intros Halt. apply H5. apply Forall_app. split; [exact Halt|].
      constructor; [|constructor]. exact (parse_vcf_line_alt ln c p r a Ep).
Qed.

(** X16: lines that start with '#' are passed over wherever they stand, and
    every other line gives one row: when the loader returns, its four columns
    all have as many entries as the file has lines not starting with '#'. *)
Theorem load_vcf_one_row_per_data_line (lines : list string) (tbl : VcfTable) :
  _load_vcf py_int lines = inl tbl ->
  let k := length (filter is_data_line lines) in
  length (CHROM tbl) = k /\ length (POS tbl) = k
  /\ length (REF tbl) = k /\ length (ALT tbl) = k.
Proof.
  intros E k. destruct (load_vcf_loop_columns lines [] [] [] [] tbl E)
    as (H1 & H2 & H3 & H4 & _).
  simpl in *. fold k in H1, H2, H3, H4. auto.
Qed.

(** X17: only the first alternate allele is kept: when the loader returns, no
    entry of the ALT column contains a comma. *)
Theorem load_vcf_keeps_first_alt (lines : list string) (tbl : VcfTable) (a : string) :
  _load_vcf py_int lines = inl tbl -> In a (ALT tbl) -> contains comma a = false.
Proof.
  intros E Hin. destruct (load_vcf_loop_columns lines [] [] [] [] tbl E)
    as (_ & _ & _ & _ & H5).
  specialize (H5 (Forall_nil _)). rewrite Forall_forall in H5. exact (H5 a Hin).
Qed.

Lemma load_vcf_loop_short_line (lines : list string) (ln : string) :
  In ln lines -> starts_with_hash ln = false ->
  (length (vcf_fields ln) < 5)%nat ->
  forall chrom pos_ ref_ alt_,
    exists e, load_vcf_loop py_int lines chrom pos_ ref_ alt_ = inr e.
Proof.
  intros Hin Hdata Hshort.
  induction lines as [|l0 lines IH]; [destruct Hin|].
  intros chrom pos_ ref_ alt_. simpl.
  destruct Hin as [->|Hin].
  - rewrite Hdata. destruct (parse_vcf_line_short ln Hshort) as [e Ee].
    rewrite Ee. exists e. reflexivity.
  - destruct (starts_with_hash l0); [apply IH; exact Hin|].
    destruct (parse_vcf_line py_int l0) as [[[[c p] r] a]|e];
      [apply IH; exact Hin|exists e; reflexivity].
Qed.

(** X18: a line that does not start with '#' is never passed over: if any such
    line has fewer than five tab-separated fields (an empty line, for one),
    the loader raises instead of returning a table. *)
Theorem load_vcf_raises_on_short_line (lines : list string) (ln : string) :
  In ln lines -> starts_with_hash ln = false ->
  (length (vcf_fields ln) < 5)%nat ->
  exists e, _load_vcf py_int lines = inr e.
Proof.
  intros Hin Hdata Hshort.
  exact (load_vcf_loop_short_line lines ln Hin Hdata Hshort [] [] [] []).
Qed.
End LoadVcfFacts.

Section UnitIndependence.
Variables nanmean nanmax nanmin : list float -> float.
Variable args : Args.
Variable plot_non_sig : bool.

(** X19: what a unit adds does not depend on the rows already in the list, and
    those rows are never changed: processing a unit with a list in hand gives
    that list followed by the rows the same unit gives from an empty list
    (and raises exactly when it raises from an empty list). *)
Theorem process_unit_independent_of_earlier_rows
    (variant : Variant) (interval : Interval) (vout : VariantOutput)
    (the_ontology : string) (track_names : list string) (plot_path : string)
    (results_rows : list ResultRow) :
  process_unit nanmean nanmax nanmin args plot_non_sig variant interval vout
    the_ontology track_names plot_path results_rows
  = option_map (fun added => results_rows ++ added)
      (process_unit nanmean nanmax nanmin args plot_non_sig variant interval vout
         the_ontology track_names plot_path []).
Proof.
  unfold process_unit.
  destruct (Nat.eqb_spec (n_tracks_of (alternate vout)) 0) as [Hz|Hnz].
  { simpl. rewrite app_nil_r. reflexivity. }
  destruct (if negb (length_alter_of variant =? 0)
            then align_reference_for_indel variant interval vout
                   (length_alter_of variant)
            else Some vout) as [vout1|]; [|reflexivity].
  cbv zeta.
  destruct (mat_size _ =? 0).
  { simpl. rewrite app_nil_r. reflexivity. }
  rewrite !(finish_unit_of_unit nanmean nanmax nanmin args variant the_ontology
              track_names) by lia.
  reflexivity.
Qed.
End UnitIndependence.

(* ------------------------------------------------------------------ *)
(** ** The theorems above at concrete inputs *)
(* ------------------------------------------------------------------ *)

Lemma unit_rows_are_consistent_witness :
  let rows := scan_tracks seq_nanmean seq_nanmax seq_nanmin example_args
                example_snv "UBERON:0000955" [] (-3) 0
                example_two_region_scores 2 [] in
  exists r,
    nth_error rows 1 = Some r
    /\ In r rows
    /\ is_significant r = true
    /\ 0 <= region_index r < n_regions r
    /\ direction r <> "none"%string.
Proof.
  intros rows.
  destruct (nth_error rows 1) as [r|] eqn:E; [|vm_compute in E; discriminate E].
  assert (Hin : In r rows) by (apply (nth_error_In _ 1%nat); exact E).
  assert (Hsig : is_significant r = true)
    by (vm_compute in E; injection E as <-; reflexivity).
  destruct (unit_rows_are_consistent seq_nanmean seq_nanmax seq_nanmin example_args
              example_snv "UBERON:0000955" [] (-3) 0 example_two_region_scores 2 r Hin)
    as (Hdir & _ & _ & Hidx & _).
  exists r. split; [reflexivity|]. split; [exact Hin|]. split; [exact Hsig|].
  split; [exact (Hidx Hsig)|].
  intros Hnone. apply Hdir in Hnone. congruence.
Defined.

Lemma sig_any_is_any_track_significant_witness :
  (0 < 2)%nat
  /\ sig_any example_snv "UBERON:0000955"
       (scan_tracks seq_nanmean seq_nanmax seq_nanmin example_args
          example_snv "UBERON:0000955" [] (-3) 0 example_two_region_scores 2 [])
       2
     = true.
Proof.
  assert (Hn : (0 < 2)%nat) by lia.
  split; [exact Hn|].
  rewrite (sig_any_is_any_track_significant seq_nanmean seq_nanmax seq_nanmin
             example_args example_snv "UBERON:0000955" [] (-3) 0
             example_two_region_scores 2 [] Hn : sig_any _ _ _ 2 = _).
  vm_compute. reflexivity.
Defined.

Lemma finish_unit_fills_last_rows_witness :
  (0 < 2)%nat
  /\ map plot_file
       (finish_unit false example_snv "UBERON:0000955" "plots/unit.png" 2
          (scan_tracks seq_nanmean seq_nanmax seq_nanmin example_args
             example_snv "UBERON:0000955" [] (-3) 0 example_two_region_scores 2 []))
     = [None; Some "plots/unit.png"; Some "plots/unit.png"]%string.
Proof.
  assert (Hn : (0 < 2)%nat) by lia.
  split; [exact Hn|].
  rewrite (finish_unit_fills_last_rows seq_nanmean seq_nanmax seq_nanmin
             example_args example_snv "UBERON:0000955" [] (-3) 0 false
             "plots/unit.png" example_two_region_scores 2 [] Hn
           : finish_unit _ _ _ _ 2 _ = _).
  vm_compute. reflexivity.
Defined.

Lemma process_unit_skips_when_window_exceeds_span_witness :
  2 * scan_span example_args_wide_window < window_size example_args_wide_window
  /\ process_unit seq_nanmean seq_nanmax seq_nanmin example_args_wide_window false
       example_snv ten_wide example_prediction "UBERON:0000955" [] "plots/unit.png" []
     = Some [].
Proof.
  assert (Hw : 2 * scan_span example_args_wide_window
               < window_size example_args_wide_window) by reflexivity.
  split; [exact Hw|].
  destruct (process_unit seq_nanmean seq_nanmax seq_nanmin example_args_wide_window
              false example_snv ten_wide example_prediction "UBERON:0000955" []
              "plots/unit.png" []) as [rows|] eqn:E;
    [|vm_compute in E; discriminate E].
  f_equal.
  exact (process_unit_skips_when_window_exceeds_span seq_nanmean seq_nanmax
           seq_nanmin example_args_wide_window false example_snv ten_wide
           example_prediction "UBERON:0000955" [] "plots/unit.png" [] rows Hw E).
Defined.

Lemma reported_regions_lie_in_scan_span_witness :
  exists rows r,
    (has_shape (alternate example_prediction) 10 1
     /\ has_shape (reference example_prediction) 10 1
     /\ 1 <= window_size example_args)
    /\ process_unit seq_nanmean seq_nanmax seq_nanmin example_args false
         example_snv ten_wide example_prediction "UBERON:0000955" []
         "plots/unit.png" [] = Some rows
    /\ In r rows /\ is_significant r = true
    /\ rel_start_bp r = bp_int (-3) /\ rel_end_bp r = bp_int 1
    /\ exists a b,
         rel_start_bp r = bp_int a /\ rel_end_bp r = bp_int b
         /\ abs_start_bp r = bp_int (position example_snv + a)
         /\ abs_end_bp r = bp_int (position example_snv + b)
         /\ - scan_span example_args <= a /\ a <= b /\ b < scan_span example_args
         /\ min_length example_args + window_size example_args - 1 <= b - a + 1.
Proof.
  assert (Ha : has_shape (alternate example_prediction) 10 1)
    by (split; [reflexivity | repeat constructor]).
  assert (Hr : has_shape (reference example_prediction) 10 1)
    by (split; [reflexivity | repeat constructor]).
  assert (Hw : 1 <= window_size example_args) by (vm_compute; discriminate).
  destruct (process_unit seq_nanmean seq_nanmax seq_nanmin example_args false
              example_snv ten_wide example_prediction "UBERON:0000955" []
              "plots/unit.png" []) as [rows|] eqn:E;
    [|vm_compute in E; discriminate E].
  destruct rows as [|r rows]; [vm_compute in E; discriminate E|].
  pose proof E as E'. vm_compute in E'. injection E' as Er _.
  assert (Hsig : is_significant r = true) by (rewrite <- Er; reflexivity).
  exists (r :: rows), r.
  split; [tauto|]. split; [reflexivity|]. split; [left; reflexivity|].
  split; [exact Hsig|].
  split; [rewrite <- Er; reflexivity|]. split; [rewrite <- Er; reflexivity|].
  exact (reported_regions_lie_in_scan_span seq_nanmean seq_nanmax seq_nanmin
           example_args false example_snv ten_wide example_prediction
           "UBERON:0000955" [] "plots/unit.png" (r :: rows) 10 1 r
           Ha Hr Hw E (or_introl eq_refl) Hsig).
Defined.

Lemma load_vcf_one_row_per_data_line_witness :
  exists tbl,
    _load_vcf decimal_int example_vcf = inl tbl
    /\ length example_vcf = 4%nat
    /\ length (CHROM tbl) = 2%nat /\ length (POS tbl) = 2%nat
    /\ length (REF tbl) = 2%nat /\ length (ALT tbl) = 2%nat.
Proof.
  destruct (_load_vcf decimal_int example_vcf) as [tbl|e] eqn:E;
    [|vm_compute in E; discriminate E].
  exists tbl. split; [reflexivity|]. split; [reflexivity|].
  exact (load_vcf_one_row_per_data_line decimal_int example_vcf tbl E).
Defined.

Lemma load_vcf_keeps_first_alt_witness :
  exists tbl a,
    _load_vcf decimal_int example_vcf = inl tbl
    /\ nth_error (ALT tbl) 1 = Some a
    /\ a = "A"%string
    /\ contains comma a = false.
Proof.
  destruct (_load_vcf decimal_int example_vcf) as [tbl|e] eqn:E;
    [|vm_compute in E; discriminate E].
  destruct (nth_error (ALT tbl) 1) as [a|] eqn:Ea;
    [|vm_compute in E; injection E as <-; discriminate Ea].
  exists tbl, a. split; [reflexivity|]. split; [exact Ea|].
  split; [vm_compute in E; injection E as <-; vm_compute in Ea; congruence|].
  apply (load_vcf_keeps_first_alt decimal_int example_vcf tbl a E).
  apply (nth_error_In _ 1%nat). exact Ea.
Defined.

Lemma load_vcf_raises_on_short_line_witness :
  (In (String newline "") example_vcf_blank_end
   /\ starts_with_hash (String newline "") = false
   /\ (length (vcf_fields (String newline "")) < 5)%nat)
  /\ (exists e, _load_vcf decimal_int example_vcf_blank_end = inr e)
  /\ _load_vcf decimal_int example_vcf_blank_end = inr IndexError.
Proof.
  assert (Hin : In (String newline "") example_vcf_blank_end)
    by (unfold example_vcf_blank_end; apply in_or_app; right; left; reflexivity).
  assert (Hdata : starts_with_hash (String newline "") = false) by reflexivity.
  assert (Hshort : (length (vcf_fields (String newline "")) < 5)%nat)
    by (vm_compute; lia).
  split; [tauto|]. split.
  - exact (load_vcf_raises_on_short_line decimal_int example_vcf_blank_end
             (String newline "") Hin Hdata Hshort).
  - vm_compute. reflexivity.
Defined.
